(** * Airport density and accessibility: distance and nearest-airport search

  A shallow embedding of [final-project.py]: the haversine distance, the
  k-nearest and radius searches over a pandas frame of airports, the
  per-country aggregation and the country-name resolution of the loader.

  Conventions of the embedding.
  - A Python [float] is idealised as a real number: no rounding, no NaN,
    no infinity.  [math.sqrt] and [math.asin] raise [ValueError] outside
    their domain, so they return an [option].  The theorems on distances
    are therefore about the formula the code evaluates.  What binary64
    rounding adds is outside them: a value of [a] one unit in the last
    place above 1 at antipodal points, a value of [a] just below 0, and
    with it a [ValueError] of [math.sqrt], at latitudes outside
    [-90, 90], and results that differ in the last digits from the exact
    ones.
  - A cell of an object column that pandas may hold as NaN (a missing
    value) is an [option string].
  - A [DataFrame] is the list of its rows in frame order, each paired with
    its index label; labels may repeat, as they may in pandas.
  - An exception is [None] in the [option] monad. *)

From Stdlib Require Import Reals Lra ZArith String Ascii.
From stdpp Require Import base option list gmap strings sorting.

(** ** Decidable comparisons on reals *)

#[global] Instance Rle_rel_dec : RelDecision Rle := Rle_dec.
#[global] Instance Rlt_rel_dec : RelDecision Rlt := Rlt_dec.
#[global] Instance Req_rel_dec : EqDecision R := Req_dec_T.

(** ** The [math] module *)

Module math.
Local Open Scope R_scope.

(** [math.radians(x)] *)
Definition radians (x : R) : R := x * (PI / 180).

(** [math.sqrt(x)]: ValueError on a negative argument. *)
Definition sqrt (x : R) : option R :=
  if decide (0 <= x) then Some (R_sqrt.sqrt x) else None.

(** [math.asin(x)]: ValueError outside [-1, 1]. *)
Definition asin (x : R) : option R :=
  if decide (-1 <= x <= 1) then Some (Ratan.asin x) else None.
End math.

(** ** Geodesic distance *)

Section Haversine.
Local Open Scope R_scope.

(** The default of the keyword argument [radius_km]. *)
Definition RADIUS_KM_DEFAULT : R := 6371.

(** The value bound to [a] on line 53, from the four arguments in degrees. *)
Definition haversine_a (lat1 lon1 lat2 lon2 : R) : R :=
  let lat1 := math.radians lat1 in
  let lon1 := math.radians lon1 in
  let lat2 := math.radians lat2 in
  let lon2 := math.radians lon2 in
  let dlat := lat2 - lat1 in
  let dlon := lon2 - lon1 in
  sin (dlat / 2) ^ 2 + cos lat1 * cos lat2 * sin (dlon / 2) ^ 2.

(** [haversine_km(lat1, lon1, lat2, lon2, radius_km=6371.0)]; an omitted
    [radius_km] is [None]. *)
Definition haversine_km (lat1 lon1 lat2 lon2 : R) (radius_km : option R)
  : option R :=
  let radius_km := default RADIUS_KM_DEFAULT radius_km in
  let lat1 := math.radians lat1 in
  let lon1 := math.radians lon1 in
  let lat2 := math.radians lat2 in
  let lon2 := math.radians lon2 in
  let dlat := lat2 - lat1 in
  let dlon := lon2 - lon1 in
  let a := sin (dlat / 2) ^ 2 + cos lat1 * cos lat2 * sin (dlon / 2) ^ 2 in
  s ← math.sqrt a;
  t ← math.asin s;
  Some (radius_km * 2 * t).

(** The distance as section 4.1 of the specification words it: every
    input converted to radians,
    [a = sin²(Δlat/2) + cos(lat1)·cos(lat2)·sin²(Δlon/2)] and
    [d = 2·R·asin(√a)]. *)
Definition spec_radians (deg : R) : R := deg * PI / 180.

Definition spec_a (lat1 lon1 lat2 lon2 : R) : R :=
  let phi1 := spec_radians lat1 in
  let phi2 := spec_radians lat2 in
  let dlat := spec_radians lat2 - spec_radians lat1 in
  let dlon := spec_radians lon2 - spec_radians lon1 in
  (sin (dlat / 2))² + cos phi1 * cos phi2 * (sin (dlon / 2))².

Definition spec_distance (lat1 lon1 lat2 lon2 radius : R) : R :=
  2 * radius * Ratan.asin (R_sqrt.sqrt (spec_a lat1 lon1 lat2 lon2)).
End Haversine.

(** ** Strings *)

(** [str.upper()] and [str.lower()] on ASCII text.  A string is the list
    of its bytes and only the letters a-z and A-Z change case; Python's
    methods follow Unicode and also change letters outside ASCII, so the
    two agree on the strings whose bytes are all below 128, as country
    codes and airport types are. *)
Definition ascii_upper (c : ascii) : ascii :=
  let n := N_of_ascii c in
  if ((97 <=? n) && (n <=? 122))%N then ascii_of_N (n - 32) else c.

Definition ascii_lower (c : ascii) : ascii :=
  let n := N_of_ascii c in
  if ((65 <=? n) && (n <=? 90))%N then ascii_of_N (n + 32) else c.

Fixpoint str_upper (s : string) : string :=
  match s with
  | EmptyString => EmptyString
  | String c s' => String (ascii_upper c) (str_upper s')
  end.

Fixpoint str_lower (s : string) : string :=
  match s with
  | EmptyString => EmptyString
  | String c s' => String (ascii_lower c) (str_lower s')
  end.

(** [sub in s] *)
Definition str_contains (sub s : string) : bool :=
  match String.index 0 sub s with
  | Some _ => true
  | None => false
  end.

(** [str(t)] of an object cell: a missing value prints as ["nan"]. *)
Definition str_of_cell (t : option string) : string := default "nan"%string t.

(** ** Data model *)

(** A row of [airport-codes.csv] once pandas has read it: [None] is NaN,
    which is what [read_csv] makes of an empty cell and of the text "NA"
    (the continent code of North America, the country code of Namibia). *)
Record CsvAirport := {
  csv_name : option string;
  csv_type : option string;
  csv_continent : option string;
  csv_iso_country : option string;
  csv_municipality : option string;
  csv_latitude_deg : option R;
  csv_longitude_deg : option R
}.

(** A row of the frame [load_airports] returns. *)
Record Airport := {
  name : option string;
  type : option string;
  continent : option string;
  iso_country : option string;
  municipality : option string;
  latitude_deg : R;
  longitude_deg : R;
  country_name : option string;
  is_large : Z
}.

(** The index label of a row. *)
Abbreviation Label := Z (only parsing).

(** A frame: rows in order, each with its index label. *)
Abbreviation Frame Row := (list (Label * Row)) (only parsing).
Abbreviation DataFrame := (Frame Airport) (only parsing).

(** A frame of airports with the extra column [distance_km]. *)
Abbreviation DistFrame := (list (Label * Airport * R)) (only parsing).

Definition distance_km (x : Label * Airport * R) : R := x.2.
Definition index {Row} (df : Frame Row) : list Label := df.*1.

(** ** Python lists *)

(** [l[:k]]: a negative [k] counts from the end. *)
Definition slice_to {A} (k : Z) (l : list A) : list A :=
  if (k <? 0)%Z then take (Z.to_nat (Z.of_nat (length l) + k)) l
  else take (Z.to_nat k) l.

Section ListSort.
Context {A : Type} (key : A → R).

(** [list.sort(key=key)] is a stable sort: the result is ascending by key
    and elements with equal keys keep their order.  That result is unique,
    so the embedding computes it by insertion: an element moves right past
    the elements whose key is strictly smaller. *)
Fixpoint sort_insert (x : A) (l : list A) : list A :=
  match l with
  | [] => [x]
  | y :: l' =>
      if decide (key y < key x)%R then y :: sort_insert x l'
      else x :: y :: l'
  end.

Fixpoint list_sort (l : list A) : list A :=
  match l with
  | [] => []
  | x :: l' => sort_insert x (list_sort l')
  end.
End ListSort.

(** ** pandas frames *)

(** [df.loc[labels]] for a list of labels: for each label in turn, every
    row that carries it; KeyError when a label is not in the index. *)
Definition loc_label {Row} (df : Frame Row) (i : Label) : option (Frame Row) :=
  match filter (λ x, x.1 = i) df with
  | [] => None
  | rows => Some rows
  end.

Definition loc {Row} (df : Frame Row) (labels : list Label)
  : option (Frame Row) :=
  mjoin <$> mapM (loc_label df) labels.

(** [df["distance_km"] = values] for a list: ValueError when the list is
    not as long as the frame. *)
Definition assign_distance_km (df : DataFrame) (values : list R)
  : option DistFrame :=
  if decide (length values = length df) then Some (zip df values) else None.

(** ** Helper functions of the program *)

(** [get_country_min_max(counts_df)]: [counts_df] has the columns
    [country_name] and [airport_count]. *)
Definition get_country_min_max (counts_df : list (string * Z))
  : option (string * Z) * option (string * Z) :=
  match counts_df with
  | [] => (None, None)
  | max_row :: _ =>
      let min_row := last counts_df in
      (Some (max_row.1, max_row.2), (λ r, (r.1, r.2)) <$> min_row)
  end.

(** The lambda of [add_large_flag]. *)
Definition large_flag (t : option string) : Z :=
  if str_contains "large" (str_lower (str_of_cell t)) then 1 else 0.

(** [compute_distances_to_pin(df, pin_lat, pin_lon)] *)
Definition compute_distances_to_pin (df : DataFrame) (pin_lat pin_lon : R)
  : option (list (Label * R)) :=
  mapM (λ x : Label * Airport,
          d ← haversine_km pin_lat pin_lon
                (latitude_deg x.2) (longitude_deg x.2) None;
          Some (x.1, d)) df.

(** The default of the keyword argument [k]. *)
Definition K_DEFAULT : Z := 3.

(** [find_closest_airports(df, pin_lat, pin_lon, k=3)]; an omitted [k] is
    [None]. *)
Definition find_closest_airports (df : DataFrame) (pin_lat pin_lon : R)
    (k : option Z) : option DistFrame :=
  let k := default K_DEFAULT k in
  dist_list ← compute_distances_to_pin df pin_lat pin_lon;
  let dist_list := list_sort snd dist_list in
  let closest_idx := (slice_to k dist_list).*1 in
  closest_df ← loc df closest_idx;
  assign_distance_km closest_df (slice_to k dist_list).*2.

(** [get_continent_full_name(code)] *)
Definition continent_mapping : gmap string string :=
  <["SA" := "South America"]> (<["OC" := "Oceania"]>
  (<["NA" := "North America"]> (<["EU" := "Europe"]> (<["AS" := "Asia"]>
  (<["AN" := "Antarctica"]> (<["AF" := "Africa"]> ∅))))))%string.

Definition get_continent_full_name (code : string) : string :=
  default code (continent_mapping !! code).

(** ** Loading *)

(** [dict(zip(keys, values))]: a later pair overrides an earlier one. *)
Definition dict_of_pairs {K V} `{Countable K} (pairs : list (K * V))
  : gmap K V :=
  foldl (λ m kv, <[kv.1 := kv.2]> m) ∅ pairs.

(** [iso_map] of [load_airports], from the rows (alpha-2 code, English
    short name) of the reference table as pandas has read them.  Either
    cell may be missing: [read_csv] reads an empty cell, and also the text
    "NA" (the code of Namibia), as NaN, and [.str.upper()] leaves NaN as
    it is.  Every missing cell is the one object [np.nan], which a [dict]
    finds by identity, so NaN is a key like any other, here [None]. *)
Definition make_iso_map (iso_rows : list (option string * option string))
  : gmap (option string) (option string) :=
  dict_of_pairs ((λ r : option string * option string,
                    (str_upper <$> r.1, r.2)) <$> iso_rows).

(** The cell of [country_name] for a cell of [iso_country]:
    [c = cell.upper()], or NaN for a missing cell, looked up with
    [iso_map.get(c, c)]. *)
Definition resolve_country (iso_map : gmap (option string) (option string))
    (cell : option string) : option string :=
  let c := str_upper <$> cell in
  default c (iso_map !! c).

(** [load_airports()], from the cells of the two files: the coordinates
    are those of the file, or those split from [coordinates] and parsed by
    [to_numeric], [None] where that gives NaN.  [read_csv] labels the rows
    0, 1, 2, ...; [dropna] removes those without coordinates and keeps the
    labels of the others.  A missing [iso_country] stays missing in
    [country_name] unless the reference table has a row whose code is
    missing as well. *)
Definition load_airports (csv : list CsvAirport)
    (iso_rows : list (option string * option string)) : DataFrame :=
  let df := imap (λ i r, (Z.of_nat i, r)) csv in
  let iso_map := make_iso_map iso_rows in
  omap (λ x : Label * CsvAirport,
          lat ← csv_latitude_deg x.2;
          lon ← csv_longitude_deg x.2;
          Some (x.1,
                {| name := csv_name x.2;
                   type := csv_type x.2;
                   continent := csv_continent x.2;
                   iso_country := csv_iso_country x.2;
                   municipality := csv_municipality x.2;
                   latitude_deg := lat;
                   longitude_deg := lon;
                   country_name := resolve_country iso_map (csv_iso_country x.2);
                   is_large := large_flag (csv_type x.2) |})) df.

(** ** The data path of [main] *)

(** [s.isin(values)] on one cell: a missing value is in no list of
    strings. *)
Definition isin (cell : option string) (values : list string) : bool :=
  match cell with
  | Some t => bool_decide (t ∈ values)
  | None => false
  end.

(** The three sidebar filters.  The continent selector arrives as the code
    that [name_to_code] gives for the chosen name, [None] for the entry
    "All continents". *)
Definition filter_continent (selected_cont_code : option string)
    (airports : DataFrame) : DataFrame :=
  match selected_cont_code with
  | None => airports
  | Some c => filter (λ x, continent x.2 = Some c) airports
  end.

Definition filter_country (selected_country : string) (df_cont : DataFrame)
  : DataFrame :=
  if decide (selected_country = "All countries"%string) then df_cont
  else filter (λ x, country_name x.2 = Some selected_country) df_cont.

Definition filter_types (selected_types : list string)
    (df_country : DataFrame) : DataFrame :=
  filter (λ x, isin (type x.2) selected_types) df_country.

Definition df_filtered (airports : DataFrame)
    (selected_cont_code : option string) (selected_country : string)
    (selected_types : list string) : DataFrame :=
  filter_types selected_types
    (filter_country selected_country
       (filter_continent selected_cont_code airports)).

(** [df.groupby("country_name")["name"].count().reset_index(name="airport_count")]:
    one row per country name present in the frame, in ascending order of
    the names; rows without a country name belong to no group, and
    [count] counts the cells of [name] that are not missing. *)
Definition group_keys (df : DataFrame) : list string :=
  merge_sort String.le (remove_dups (omap (λ x, country_name x.2) df)).

Definition group_count (df : DataFrame) (c : string) : Z :=
  Z.of_nat (length (filter (λ x, country_name x.2 = Some c ∧ is_Some (name x.2)) df)).

Definition groupby_country_count (df : DataFrame) : list (string * Z) :=
  (λ c, (c, group_count df c)) <$> group_keys df.

(** Lines 206-215: the counts by country, sorted by
    [sort_values("airport_count", ascending=False)], and their extremes.
    pandas sorts with quicksort by default and fixes no order among equal
    counts, so the sort is an argument. *)
Definition country_counts
    (sort_values : list (string * Z) → list (string * Z))
    (df : DataFrame) : list (string * Z) :=
  sort_values (groupby_country_count df).

Definition country_min_max
    (sort_values : list (string * Z) → list (string * Z))
    (df : DataFrame) : option (string * Z) * option (string * Z) :=
  get_country_min_max (country_counts sort_values df).

(** [{idx: d for idx, d in distances}] *)
Definition dist_map_of (distances : list (Label * R)) : gmap Z R :=
  foldl (λ m p, <[p.1 := p.2]> m) ∅ distances.

(** Lines 273-284: [df_radius].  [index.map(dist_map)] gives a row the
    distance stored under its label, NaN when there is none, and a NaN
    fails the comparison with the radius. *)
Definition radius_filter (df : DataFrame) (pin_lat pin_lon radius : R)
  : option DistFrame :=
  distances ← compute_distances_to_pin df pin_lat pin_lon;
  let dist_map := dist_map_of distances in
  let df_with_dist := (λ x, (x, dist_map !! x.1)) <$> df in
  Some (omap (λ x : Label * Airport * option R,
                d ← x.2; guard (d <= radius)%R;; Some (x.1, d))
             df_with_dist).

(** Lines 289-294: the table shown, [df_radius.sort_values("distance_km")]
    before the rounding for display; [sort_values] is an argument as
    above. *)
Definition radius_table (sort_values : DistFrame → DistFrame)
    (df : DataFrame) (pin_lat pin_lon radius : R) : option DistFrame :=
  sort_values <$> radius_filter df pin_lat pin_lon radius.

(** ** The option lists and the other views of [main] *)

(** [s.unique()]: the values in the order in which they first appear. *)
Fixpoint unique (l : list string) : list string :=
  match l with
  | [] => []
  | x :: l' => x :: filter (λ y, y ≠ x) (unique l')
  end.

(** [sorted(xs)] for strings, which Python compares by code point. *)
Definition sorted_strings (l : list string) : list string :=
  merge_sort String.le l.

(** [get_sorted_types(df)] *)
Definition get_sorted_types (df : DataFrame) : list string :=
  sorted_strings (unique (omap (λ x, type x.2) df)).

(** Lines 163-167.  [codes] holds each code once, so the comprehension
    [{c: get_continent_full_name(c) for c in codes}] overwrites no key and
    its items are the pairs below, in the order of [codes]; in
    [{v: k for k, v in code_to_name.items()}] a later pair overrides an
    earlier one with the same name. *)
Definition continent_codes (airports : DataFrame) : list string :=
  sorted_strings (unique (omap (λ x, continent x.2) airports)).

Definition code_to_name_items (codes : list string) : list (string * string) :=
  (λ c, (c, get_continent_full_name c)) <$> codes.

Definition name_to_code (codes : list string) : gmap string string :=
  dict_of_pairs ((λ kv, (kv.2, kv.1)) <$> code_to_name_items codes).

Definition cont_display (codes : list string) : list string :=
  "All continents"%string :: (code_to_name_items codes).*2.

(** Lines 171-177 (FILTER1), from the name the select box returns:
    [selected_cont_code] and [df_cont]; KeyError when [name_to_code] has
    no such name. *)
Definition select_continent (selected_cont : string) (airports : DataFrame)
  : option (option string * DataFrame) :=
  if decide (selected_cont = "All continents"%string) then Some (None, airports)
  else
    selected_cont_code ← name_to_code (continent_codes airports) !! selected_cont;
    Some (Some selected_cont_code,
          filter (λ x, continent x.2 = Some selected_cont_code) airports).

(** Line 180: the countries offered by the second select box. *)
Definition country_list (df_cont : DataFrame) : list string :=
  sorted_strings (unique (omap (λ x, country_name x.2) df_cont)).

(** Line 224: [counts.head(15)]. *)
Definition top15 (counts : list (string * Z)) : list (string * Z) :=
  take 15 counts.

(** Lines 273-275: [max(dist_values) if dist_values else 1000]. *)
Definition max_dist (distances : list (Label * R)) : R :=
  match distances.*2 with
  | [] => 1000
  | d :: ds => foldl Rmax d ds
  end%R.



(** Line 299: [df_radius["type"].value_counts()]: one row per type present,
    with the number of rows of that type, sorted by descending count;
    the sort is an argument as for [country_counts]. *)
Definition type_count (df_radius : DistFrame) (t : string) : Z :=
  Z.of_nat (length (filter (λ x, type x.1.2 = Some t) df_radius)).

Definition type_counts
    (sort_values : list (string * Z) → list (string * Z))
    (df_radius : DistFrame) : list (string * Z) :=
  sort_values ((λ t, (t, type_count df_radius t))
                 <$> unique (omap (λ x, type x.1.2) df_radius)).

(** ** Properties stated about frames *)

(** Ascending by [distance_km], every row against every later row. *)
Definition ascending (res : DistFrame) : Prop :=
  StronglySorted (λ x y, (distance_km x <= distance_km y)%R) res.

(** Descending by [airport_count]. *)
Definition descending (counts : list (string * Z)) : Prop :=
  StronglySorted (λ x y : string * Z, (y.2 ≤ x.2)%Z) counts.

(** A row carries its own distance to the pin. *)
Definition own_distance (pin_lat pin_lon : R) (x : Label * Airport * R)
  : Prop :=
  haversine_km pin_lat pin_lon (latitude_deg x.1.2) (longitude_deg x.1.2) None
  = Some (distance_km x).

(** An occurrence of [x] stands before an occurrence of [y] in [l]. *)
Definition before {A} (x y : A) (l : list A) : Prop :=
  [x; y] `sublist_of` l.

(** The distance [haversine_km] returns from the pin to a row with the
    default radius, and the frame with that distance next to every row. *)
Definition pin_distance (pin_lat pin_lon : R) (row : Airport) : R :=
  (RADIUS_KM_DEFAULT * 2
   * Ratan.asin (R_sqrt.sqrt
       (haversine_a pin_lat pin_lon (latitude_deg row) (longitude_deg row))))%R.

Definition with_distances (pin_lat pin_lon : R) (df : DataFrame) : DistFrame :=
  (λ x, (x, pin_distance pin_lat pin_lon x.2)) <$> df.

(** The distance that [index.map(dist_map)] gives the rows labelled [i]:
    the distance of the last row of the frame with this label. *)
Definition label_distance (pin_lat pin_lon : R) (df : DataFrame) (i : Label)
  : option R :=
  (λ y : Label * Airport, pin_distance pin_lat pin_lon y.2)
    <$> last (filter (λ y : Label * Airport, y.1 = i) df).

(** What the program needs of [sort_values]. *)
Definition sorts_by_distance (sort_values : DistFrame → DistFrame) : Prop :=
  ∀ l, sort_values l ≡ₚ l ∧ ascending (sort_values l).

Definition sorts_by_count_desc
    (sort_values : list (string * Z) → list (string * Z)) : Prop :=
  ∀ l, sort_values l ≡ₚ l ∧ descending (sort_values l).

(** The number of elements [l[:k]] keeps of a list of length [n]. *)
Definition slice_len (k : Z) (n : nat) : nat :=
  if (k <? 0)%Z then Z.to_nat (Z.of_nat n + k) else Z.to_nat k `min` n.

(** Ascending by a key. *)
Definition key_le {A} (key : A → R) (x y : A) : Prop := (key x <= key y)%R.

(** The rows with their distances in ascending order, ties in frame order,
    and the rows [find_closest_airports] is to return. *)
Definition sorted_distances (pin_lat pin_lon : R) (df : DataFrame) : DistFrame :=
  list_sort distance_km (with_distances pin_lat pin_lon df).

Definition nearest (pin_lat pin_lon : R) (k : option Z) (df : DataFrame)
  : DistFrame :=
  slice_to (default K_DEFAULT k) (sorted_distances pin_lat pin_lon df).

(** Two sorts that [sort_values] may be: the stable sort by distance,
    which is [sort_values("distance_km", kind="stable")], and a merge sort
    by descending count. *)
Definition count_ge (x y : string * Z) : Prop := (y.2 ≤ x.2)%Z.

#[global] Instance count_ge_dec : RelDecision count_ge :=
  λ x y, decide (y.2 ≤ x.2)%Z.

Definition sort_values_distance : DistFrame → DistFrame :=
  list_sort distance_km.

Definition sort_values_count_desc : list (string * Z) → list (string * Z) :=
  merge_sort count_ge.

(** A row that [groupby("country_name")["name"].count()] counts: it has a
    country name, so it is in a group, and a name. *)
Definition counted (x : Label * Airport) : Prop :=
  is_Some (country_name x.2) ∧ is_Some (name x.2).

(** The sum of the column [airport_count]. *)
Definition sum_counts (counts : list (string * Z)) : Z :=
  foldr (λ r acc, (r.2 + acc)%Z) 0%Z counts.

(** ** Sample rows, for the examples *)

Definition heathrow : Airport :=
  {| name := Some "London Heathrow Airport"; type := Some "large_airport";
     continent := Some "EU"; iso_country := Some "GB";
     municipality := Some "London";
     latitude_deg := 51.4706; longitude_deg := -0.461941;
     country_name := Some "United Kingdom"; is_large := 1 |}%string%R.

Definition kennedy : Airport :=
  {| name := Some "John F Kennedy International Airport";
     type := Some "large_airport";
     continent := None; iso_country := Some "US";
     municipality := Some "New York";
     latitude_deg := 40.639801; longitude_deg := -73.7789;
     country_name := Some "United States"; is_large := 1 |}%string%R.

(** Two airports under distinct labels, and under the same label, as
    [pd.concat] leaves two frames that were each read from a file. *)
Definition two_airports : DataFrame := [(0%Z, heathrow); (1%Z, kennedy)].
Definition concat_airports : DataFrame := [(0%Z, heathrow); (0%Z, kennedy)].

(** Three rows of the airports file, the second without coordinates and
    the third with a lower-case country code that the reference table does
    not list, and two rows of the reference table. *)
Definition sample_csv : list CsvAirport :=
  [ {| csv_name := Some "London Heathrow Airport";
       csv_type := Some "large_airport"; csv_continent := Some "EU";
       csv_iso_country := Some "GB"; csv_municipality := Some "London";
       csv_latitude_deg := Some 51.4706; csv_longitude_deg := Some (-0.461941) |};
    {| csv_name := Some "Closed Strip";
       csv_type := Some "closed"; csv_continent := Some "EU";
       csv_iso_country := Some "GB"; csv_municipality := None;
       csv_latitude_deg := None; csv_longitude_deg := None |};
    {| csv_name := Some "Pristina International Airport";
       csv_type := Some "large_airport"; csv_continent := Some "EU";
       csv_iso_country := Some "xk"; csv_municipality := Some "Prishtina";
       csv_latitude_deg := Some 42.5728; csv_longitude_deg := Some 21.035801 |}
  ]%string%R.

Definition sample_iso : list (option string * option string) :=
  [(Some "gb", Some "United Kingdom"); (Some "US", Some "United States")]%string.

(** The reference table with the row of Namibia, whose code "NA" pandas
    reads as a missing value, and an airfield of Namibia, whose
    [iso_country] is read as missing for the same reason. *)
Definition namibia_iso : list (option string * option string) :=
  sample_iso ++ [(None, Some "Namibia"%string)].

Definition namibia_csv : list CsvAirport :=
  [ {| csv_name := Some "Hosea Kutako International Airport";
       csv_type := Some "large_airport"; csv_continent := Some "AF";
       csv_iso_country := None; csv_municipality := Some "Windhoek";
       csv_latitude_deg := Some (-22.4799); csv_longitude_deg := Some 17.4709 |}
  ]%string%R.

(** A helipad at the coordinates of Heathrow, and a frame in which it
    follows Heathrow with another airport between the two. *)
Definition heathrow_helipad : Airport :=
  {| name := Some "Heathrow Helipad"; type := Some "heliport";
     continent := Some "EU"; iso_country := Some "GB";
     municipality := Some "London";
     latitude_deg := 51.4706; longitude_deg := -0.461941;
     country_name := Some "United Kingdom"; is_large := 0 |}%string%R.

Definition tied_airports : DataFrame :=
  [(0%Z, heathrow); (1%Z, kennedy); (2%Z, heathrow_helipad)].

(** A file of one airfield whose [name] cell is empty. *)
Definition unnamed_csv : list CsvAirport :=
  [ {| csv_name := None;
       csv_type := Some "small_airport"; csv_continent := Some "EU";
       csv_iso_country := Some "GB"; csv_municipality := None;
       csv_latitude_deg := Some 52.1; csv_longitude_deg := Some (-1.5) |}
  ]%string%R.

(** The third row of [sample_csv] as [load_airports] returns it. *)
Definition pristina : Airport :=
  {| name := Some "Pristina International Airport";
     type := Some "large_airport";
     continent := Some "EU"; iso_country := Some "xk";
     municipality := Some "Prishtina";
     latitude_deg := 42.5728; longitude_deg := 21.035801;
     country_name := Some "XK"; is_large := 1 |}%string%R.

(** * The embedding on small inputs *)

Section Examples.
Local Open Scope string_scope.
Local Open Scope Z_scope.

Example str_upper_code : str_upper "xk" = "XK".
Proof. reflexivity. Qed.

Example str_upper_mixed : str_upper "Ab-1z" = "AB-1Z".
Proof. reflexivity. Qed.

Example large_flag_large : large_flag (Some "Large_Airport") = 1.
Proof. reflexivity. Qed.

Example large_flag_small : large_flag (Some "small_airport") = 0.
Proof. reflexivity. Qed.

Example large_flag_missing : large_flag None = 0.
Proof. reflexivity. Qed.

Example continent_known : get_continent_full_name "OC" = "Oceania".
Proof. reflexivity. Qed.

Example continent_unknown : get_continent_full_name "XX" = "XX".
Proof. reflexivity. Qed.

Example slice_to_first : slice_to 3 [10; 20; 30; 40; 50] = [10; 20; 30].
Proof. reflexivity. Qed.

Example slice_to_long : slice_to 7 [10; 20] = [10; 20].
Proof. reflexivity. Qed.

Example slice_to_negative : slice_to (-1) [10; 20; 30] = [10; 20].
Proof. reflexivity. Qed.

Example slice_to_very_negative : slice_to (-5) [10; 20] = [].
Proof. reflexivity. Qed.

Example loc_repeated_label :
  loc [(0, "a"); (1, "b"); (0, "c")] [1; 0]
  = Some [(1, "b"); (0, "a"); (0, "c")].
Proof. reflexivity. Qed.

Example loc_missing_label : loc [(0, "a"); (1, "b")] [0; 5] = None.
Proof. reflexivity. Qed.

Example get_country_min_max_two :
  get_country_min_max [("France", 7); ("Spain", 4); ("Malta", 1)]
  = (Some ("France", 7), Some ("Malta", 1)).
Proof. reflexivity. Qed.

Example get_country_min_max_one :
  get_country_min_max [("France", 7)] = (Some ("France", 7), Some ("France", 7)).
Proof. reflexivity. Qed.

Example iso_map_later_row_wins :
  make_iso_map [(Some "gb", Some "Great Britain");
                (Some "GB", Some "United Kingdom")] !! Some "GB"
  = Some (Some "United Kingdom").
Proof. reflexivity. Qed.

Example resolve_country_missing_code :
  resolve_country (make_iso_map sample_iso) None = None
  ∧ resolve_country (make_iso_map namibia_iso) None = Some "Namibia".
Proof. split; reflexivity. Qed.

Example load_airports_namibia :
  country_name <$> (load_airports namibia_csv namibia_iso).*2
  = [Some "Namibia"].
Proof. reflexivity. Qed.

Example load_airports_labels :
  index (load_airports sample_csv sample_iso) = [0; 2].
Proof. reflexivity. Qed.

Example groupby_two_airports :
  groupby_country_count [(1, kennedy); (0, heathrow); (5, heathrow)]
  = [("United Kingdom", 2); ("United States", 1)].
Proof. reflexivity. Qed.

Example df_filtered_sample :
  index (df_filtered (load_airports sample_csv sample_iso)
           (Some "EU") "United Kingdom" ["large_airport"; "closed"])
  = [0].
Proof. reflexivity. Qed.

Example list_sort_three :
  list_sort (λ x : R * string, x.1) [(3, "c"); (1, "a"); (2, "b"); (1, "d")]%R
  = [(1, "a"); (1, "d"); (2, "b"); (3, "c")]%R.
Proof. simpl. repeat (case_decide; simpl in *; try lra). done. Qed.
End Examples.

(** * Geodesic distance: proofs *)

Section HaversineFacts.
Local Open Scope R_scope.

Lemma sin_half_sq (x y : R) :
  sin ((y - x) / 2) ^ 2 = (1 - (cos x * cos y + sin x * sin y)) / 2.
Proof.
  pose proof (cos_2a_sin ((y - x) / 2)) as H2.
  replace (2 * ((y - x) / 2)) with (y - x) in H2 by lra.
  rewrite cos_minus in H2. lra.
Qed.

Lemma sin_sq_range (x : R) : 0 <= sin x ^ 2 <= 1.
Proof. pose proof (SIN_bound x). nra. Qed.

(** The haversine term lies between 0 and 1 for all real arguments. *)
Lemma haversine_a_range (lat1 lon1 lat2 lon2 : R) :
  0 <= haversine_a lat1 lon1 lat2 lon2 <= 1.
Proof.
  unfold haversine_a. cbv zeta.
  set (x := math.radians lat1). set (y := math.radians lat2).
  set (d := (math.radians lon2 - math.radians lon1) / 2).
  rewrite sin_half_sq.
  pose proof (sin_sq_range d) as Hs.
  pose proof (COS_bound (x + y)) as Hp. rewrite cos_plus in Hp.
  pose proof (COS_bound (x - y)) as Hm. rewrite cos_minus in Hm.
  nra.
Qed.

Lemma math_sqrt_Some (x : R) : 0 <= x → math.sqrt x = Some (sqrt x).
Proof. intros Hx. unfold math.sqrt. by rewrite decide_True. Qed.

Lemma math_asin_Some (x : R) : -1 <= x <= 1 → math.asin x = Some (asin x).
Proof. intros Hx. unfold math.asin. by rewrite decide_True. Qed.

Lemma sqrt_unit_range (x : R) : 0 <= x <= 1 → 0 <= sqrt x <= 1.
Proof.
  intros [H0 H1]. split; [apply sqrt_pos|].
  rewrite <- sqrt_1. by apply sqrt_le_1_alt.
Qed.

Lemma asin_nonneg (x : R) : 0 <= x <= 1 → 0 <= asin x.
Proof.
  intros [H0 H1].
  destruct (Rle_dec 0 (asin x)) as [|Hneg]; [done|exfalso].
  pose proof (asin_bound x) as [Hlo _]. pose proof PI_RGT_0.
  pose proof (sin_lt_0_var (asin x)) as Hs.
  rewrite sin_asin in Hs by lra. lra.
Qed.

(** The code's result, with the exceptions of [math.sqrt] and [math.asin]
    discharged: over the reals [haversine_km] always returns. *)
Lemma haversine_km_value (lat1 lon1 lat2 lon2 : R) (radius_km : option R) :
  haversine_km lat1 lon1 lat2 lon2 radius_km
  = Some (default RADIUS_KM_DEFAULT radius_km * 2
          * asin (sqrt (haversine_a lat1 lon1 lat2 lon2))).
Proof.
  pose proof (haversine_a_range lat1 lon1 lat2 lon2) as Ha.
  unfold haversine_km. cbv zeta. fold (haversine_a lat1 lon1 lat2 lon2).
  rewrite math_sqrt_Some by lra. simpl.
  rewrite math_asin_Some; [done|].
  pose proof (sqrt_unit_range _ Ha). lra.
Qed.

Lemma spec_a_haversine_a (lat1 lon1 lat2 lon2 : R) :
  spec_a lat1 lon1 lat2 lon2 = haversine_a lat1 lon1 lat2 lon2.
Proof.
  unfold spec_a, haversine_a, spec_radians, math.radians, Rsqr. cbv zeta.
  replace (lat1 * PI / 180) with (lat1 * (PI / 180)) by lra.
  replace (lat2 * PI / 180) with (lat2 * (PI / 180)) by lra.
  replace (lon1 * PI / 180) with (lon1 * (PI / 180)) by lra.
  replace (lon2 * PI / 180) with (lon2 * (PI / 180)) by lra.
  lra.
Qed.

Lemma haversine_a_sym (lat1 lon1 lat2 lon2 : R) :
  haversine_a lat1 lon1 lat2 lon2 = haversine_a lat2 lon2 lat1 lon1.
Proof.
  unfold haversine_a. cbv zeta.
  set (x := math.radians lat1). set (y := math.radians lat2).
  set (u := math.radians lon1). set (v := math.radians lon2).
  replace ((y - x) / 2) with (- ((x - y) / 2)) by lra.
  replace ((v - u) / 2) with (- ((u - v) / 2)) by lra.
  rewrite !sin_neg. lra.
Qed.

Lemma haversine_a_same (lat lon : R) : haversine_a lat lon lat lon = 0.
Proof.
  unfold haversine_a. cbv zeta.
  replace ((math.radians lat - math.radians lat) / 2) with 0 by lra.
  replace ((math.radians lon - math.radians lon) / 2) with 0 by lra.
  rewrite sin_0. lra.
Qed.

(** C2.  For two points given in degrees, [haversine_km] returns the
    distance of the specification's haversine formula: all four inputs
    converted to radians, [a = sin²(Δlat/2) + cos(lat1)·cos(lat2)·sin²(Δlon/2)]
    and [2·R·asin(√a)], for any radius [R] passed and for [R = 6371] when
    the radius is omitted.  As a function of its arguments alone it has no
    effect besides its result. *)
Theorem haversine_km_refines_spec (lat1 lon1 lat2 lon2 : R) :
  (∀ radius : R,
      haversine_km lat1 lon1 lat2 lon2 (Some radius)
      = Some (spec_distance lat1 lon1 lat2 lon2 radius))
  ∧ haversine_km lat1 lon1 lat2 lon2 None
    = Some (spec_distance lat1 lon1 lat2 lon2 6371).
Proof.
  split; [intros radius|]; rewrite haversine_km_value;
    unfold spec_distance; rewrite spec_a_haversine_a; simpl;
    unfold RADIUS_KM_DEFAULT; f_equal; lra.
Qed.

(** C4.  The distance is symmetric, distance(A, B) = distance(B, A), and
    the distance from a point to itself is 0, for every pair of points and
    every radius. *)
Theorem haversine_km_symmetric_zero (lat1 lon1 lat2 lon2 : R)
    (radius_km : option R) :
  haversine_km lat1 lon1 lat2 lon2 radius_km
  = haversine_km lat2 lon2 lat1 lon1 radius_km
  ∧ haversine_km lat1 lon1 lat1 lon1 radius_km = Some 0.
Proof.
  split.
  - rewrite !haversine_km_value. by rewrite haversine_a_sym.
  - rewrite haversine_km_value, haversine_a_same, sqrt_0, asin_0.
    f_equal. lra.
Qed.

End HaversineFacts.

(** * Python lists: proofs *)

Section SliceFacts.
Context {A : Type}.
Implicit Types l : list A.

Lemma slice_to_take k l : slice_to k l = take (slice_len k (length l)) l.
Proof.
  unfold slice_to, slice_len. destruct (k <? 0)%Z; [done|].
  destruct (decide (Z.to_nat k ≤ length l)) as [Hle|Hgt].
  - by rewrite Nat.min_l.
  - rewrite Nat.min_r by lia. rewrite !take_ge; [done|lia..].
Qed.

Lemma slice_len_le k n : slice_len k n ≤ n.
Proof. unfold slice_len. destruct (k <? 0)%Z eqn:Hk; lia. Qed.

Lemma length_slice_to k l : length (slice_to k l) = slice_len k (length l).
Proof.
  rewrite slice_to_take, length_take. pose proof (slice_len_le k (length l)).
  lia.
Qed.

Lemma slice_len_spec k n :
  Z.of_nat (slice_len k n)
  = if (k <? 0)%Z then Z.max 0 (Z.of_nat n + k) else Z.min k (Z.of_nat n).
Proof. unfold slice_len. destruct (k <? 0)%Z eqn:Hk; lia. Qed.

Lemma slice_to_nil k : slice_to k (@nil A) = [].
Proof. rewrite slice_to_take. by rewrite take_nil. Qed.
End SliceFacts.

Lemma slice_to_fmap {A B} (f : A → B) k (l : list A) :
  slice_to k (f <$> l) = f <$> slice_to k l.
Proof. by rewrite !slice_to_take, length_fmap, fmap_take. Qed.

Lemma filter_sublist_mono {A} (P : A → Prop) `{!∀ x, Decision (P x)}
    (l1 l2 : list A) :
  l1 `sublist_of` l2 → filter P l1 `sublist_of` filter P l2.
Proof.
  induction 1 as [|x l1 l2 _ IH|x l1 l2 _ IH]; [done| |].
  - rewrite !filter_cons. case_decide; [by constructor|done].
  - rewrite filter_cons. case_decide; [by constructor|done].
Qed.

Section ListSortFacts.
Context {A : Type} (key : A → R).
Implicit Types (x : A) (l : list A).

Lemma sort_insert_Permutation x l : sort_insert key x l ≡ₚ x :: l.
Proof.
  induction l as [|y l IH]; simpl; [done|].
  case_decide; [|done]. rewrite IH. apply Permutation_swap.
Qed.

Lemma list_sort_Permutation l : list_sort key l ≡ₚ l.
Proof.
  induction l as [|x l IH]; simpl; [done|].
  by rewrite sort_insert_Permutation, IH.
Qed.

Lemma length_list_sort l : length (list_sort key l) = length l.
Proof. by rewrite list_sort_Permutation. Qed.

Lemma sort_insert_sorted x l :
  StronglySorted (key_le key) l → StronglySorted (key_le key) (sort_insert key x l).
Proof.
  induction 1 as [|y l Hl IH Hy]; simpl.
  - repeat constructor.
  - case_decide as Hlt.
    + constructor; [done|]. rewrite sort_insert_Permutation.
      constructor; [|done]. unfold key_le. lra.
    + assert (key_le key x y) by (unfold key_le; lra).
      constructor; [by constructor|]. constructor; [done|].
      eapply Forall_impl; [exact Hy|]. unfold key_le in *. intros z ?. lra.
Qed.

Lemma list_sort_sorted l : StronglySorted (key_le key) (list_sort key l).
Proof.
  induction l as [|x l IH]; simpl; [constructor|].
  by apply sort_insert_sorted.
Qed.

(** Stability: the elements of any one key come out in the order they
    went in. *)
Lemma sort_insert_filter (d : R) x l :
  filter (λ z, key z = d) (sort_insert key x l)
  = filter (λ z, key z = d) (x :: l).
Proof.
  induction l as [|y l IH]; simpl; [done|].
  case_decide as Hlt; [|done].
  rewrite (filter_cons _ y), IH, !(filter_cons _ x), !(filter_cons _ y).
  repeat case_decide; try done. lra.
Qed.

Lemma list_sort_filter (d : R) l :
  filter (λ z, key z = d) (list_sort key l) = filter (λ z, key z = d) l.
Proof.
  induction l as [|x l IH]; simpl; [done|].
  by rewrite sort_insert_filter, !filter_cons, IH.
Qed.

Lemma list_sort_stable x y l :
  key x = key y → before x y (list_sort key l) → before x y l.
Proof.
  unfold before. intros Hxy Hb.
  transitivity (filter (λ z, key z = key y) l); [|apply sublist_filter].
  rewrite <- list_sort_filter.
  assert (Hf : filter (λ z, key z = key y) [x; y] = [x; y]).
  { rewrite !filter_cons, filter_nil. by rewrite !decide_True. }
  rewrite <- Hf. by apply filter_sublist_mono.
Qed.

(** A list has one arrangement that is ascending by key and keeps the
    order within every key, so every stable sort computes [list_sort]. *)
Lemma stable_sorted_unique l1 l2 :
  StronglySorted (key_le key) l1 → StronglySorted (key_le key) l2 →
  (∀ d : R, filter (λ z, key z = d) l1 = filter (λ z, key z = d) l2) →
  l1 = l2.
Proof.
  intros Hs1. revert l2.
  induction Hs1 as [|x l1 Hs1 IH Hx]; intros l2 Hs2 Heq.
  - destruct l2 as [|y l2]; [done|]. specialize (Heq (key y)).
    rewrite filter_nil, filter_cons, decide_True in Heq by done. done.
  - destruct l2 as [|y l2].
    { specialize (Heq (key x)).
      rewrite filter_nil, filter_cons, decide_True in Heq by done. done. }
    apply StronglySorted_inv in Hs2 as [Hs2 Hy].
    assert (Hxy : key_le key y x).
    { assert (Hin : x ∈ filter (λ z, key z = key x) (x :: l1))
        by (apply list_elem_of_filter; split; [done|left]).
      rewrite Heq in Hin. apply list_elem_of_filter in Hin as [_ Hin].
      apply elem_of_cons in Hin as [->|Hin]; [unfold key_le; lra|].
      by eapply Forall_forall in Hy. }
    assert (Hyx : key_le key x y).
    { assert (Hin : y ∈ filter (λ z, key z = key y) (y :: l2))
        by (apply list_elem_of_filter; split; [done|left]).
      rewrite <- Heq in Hin. apply list_elem_of_filter in Hin as [_ Hin].
      apply elem_of_cons in Hin as [->|Hin]; [unfold key_le; lra|].
      by eapply Forall_forall in Hx. }
    assert (Hk : key x = key y) by (unfold key_le in *; lra).
    pose proof (Heq (key x)) as Hhd.
    rewrite !filter_cons, !decide_True in Hhd by done.
    injection Hhd as <- _. f_equal. apply IH; [done|]. intros d.
    specialize (Heq d). rewrite !filter_cons in Heq.
    case_decide; [by injection Heq|done].
Qed.

Lemma list_sort_unique l l' :
  StronglySorted (key_le key) l' →
  (∀ d : R, filter (λ z, key z = d) l' = filter (λ z, key z = d) l) →
  l' = list_sort key l.
Proof.
  intros Hs Heq. apply stable_sorted_unique; [done|apply list_sort_sorted|].
  intros d. by rewrite list_sort_filter.
Qed.
End ListSortFacts.

Lemma sort_insert_fmap {A B} (f : A → B) (key : A → R) (key' : B → R) x l :
  (∀ x, key' (f x) = key x) →
  sort_insert key' (f x) (f <$> l) = f <$> sort_insert key x l.
Proof.
  intros Hk. induction l as [|y l IH]; [done|].
  rewrite fmap_cons. simpl. rewrite !Hk.
  case_decide; [by rewrite IH|done].
Qed.

Lemma list_sort_fmap {A B} (f : A → B) (key : A → R) (key' : B → R) l :
  (∀ x, key' (f x) = key x) →
  list_sort key' (f <$> l) = f <$> list_sort key l.
Proof.
  intros Hk. induction l as [|x l IH]; [done|].
  rewrite fmap_cons. simpl. by rewrite IH, (sort_insert_fmap f key).
Qed.

(** * pandas frames: proofs *)

Section LocFacts.
Context {Row : Type}.
Implicit Types (df c : Frame Row) (t : Label * Row) (T : list (Label * Row)).

Lemma loc_nil df : loc df [] = Some [].
Proof. done. Qed.

Lemma loc_cons df i labels :
  loc df (i :: labels)
  = rows ← loc_label df i; rest ← loc df labels; Some (rows ++ rest).
Proof.
  unfold loc. simpl.
  destruct (loc_label df i) as [rows|]; simpl; [|done].
  destruct (mapM _ labels); reflexivity.
Qed.

Lemma loc_label_Some df i rows :
  loc_label df i = Some rows →
  rows = filter (λ x, x.1 = i) df ∧ 1 ≤ length rows.
Proof.
  unfold loc_label. destruct (filter _ df) as [|r rs]; [done|].
  intros [= <-]. simpl. split; [done|lia].
Qed.

Lemma loc_length_ge df labels c :
  loc df labels = Some c → length labels ≤ length c.
Proof.
  revert c. induction labels as [|i labels IH]; intros c.
  - intros [= <-]. done.
  - rewrite loc_cons. destruct (loc_label df i) as [rows|] eqn:Hi; [|done].
    simpl. destruct (loc df labels) as [rest|]; [|done]. intros [= <-].
    apply loc_label_Some in Hi as [_ Hlen]. specialize (IH rest eq_refl).
    rewrite length_app. simpl. lia.
Qed.

(** When [loc] returns as many rows as labels were asked for, the rows are
    those the labels were taken from. *)
Lemma loc_exact df T c :
  Forall (λ t, t ∈ df) T →
  loc df T.*1 = Some c → length c = length T → c = T.
Proof.
  intros HT. revert c. induction HT as [|t T Ht _ IH]; intros c.
  - by intros [= <-].
  - rewrite fmap_cons, loc_cons.
    destruct (loc_label df t.1) as [rows|] eqn:Hi; [|done]. simpl.
    destruct (loc df T.*1) as [rest|] eqn:Hrest; [|done]. intros [= <-].
    rewrite length_app. simpl. intros Hlen.
    pose proof (loc_length_ge _ _ _ Hrest) as Hge. rewrite length_fmap in Hge.
    apply loc_label_Some in Hi as [Hrows Hone].
    assert (Ht' : t ∈ rows) by (rewrite Hrows; by apply list_elem_of_filter).
    destruct rows as [|r [|r' rows]]; simpl in *; [lia| |lia].
    apply list_elem_of_singleton in Ht' as <-.
    rewrite (IH rest); [done|done|lia].
Qed.

Lemma filter_none (P : Label * Row → Prop) `{!∀ x, Decision (P x)} df :
  (∀ x, x ∈ df → ¬ P x) → filter P df = [].
Proof.
  induction df as [|r df IH]; [done|]. intros Hno.
  rewrite filter_cons, decide_False by (apply Hno; left).
  apply IH. intros x Hx. apply Hno. by right.
Qed.

Lemma loc_label_unique df t :
  NoDup (index df) → t ∈ df → filter (λ x, x.1 = t.1) df = [t].
Proof.
  unfold index. induction df as [|r df IH]; [by intros _ ?%elem_of_nil|].
  rewrite fmap_cons. intros [Hr Hnd]%NoDup_cons Ht.
  rewrite filter_cons. apply elem_of_cons in Ht as [->|Ht].
  - rewrite decide_True by done. f_equal. apply filter_none.
    intros x Hx Heq. apply Hr. rewrite <- Heq. by apply list_elem_of_fmap_2.
  - rewrite decide_False; [by apply IH|].
    intros Heq. apply Hr. rewrite Heq. by apply list_elem_of_fmap_2.
Qed.

(** With unique labels [loc] finds exactly the rows asked for. *)
Lemma loc_NoDup df T :
  NoDup (index df) → Forall (λ t, t ∈ df) T → loc df T.*1 = Some T.
Proof.
  intros Hnd. induction 1 as [|t T Ht _ IH]; [done|].
  rewrite fmap_cons, loc_cons, IH. unfold loc_label.
  by rewrite loc_label_unique.
Qed.
End LocFacts.

(** * The frames of [main] have unique labels *)

Section IndexFacts.

Lemma NoDup_index_sublist {Row} (df1 df2 : Frame Row) :
  df1 `sublist_of` df2 → NoDup (index df2) → NoDup (index df1).
Proof.
  intros Hsub Hnd. eapply sublist_NoDup; [exact Hnd|].
  unfold index. by apply fmap_sublist.
Qed.

Lemma index_omap_sublist {Row Row'} (f : Label * Row → option (Label * Row'))
    (df : Frame Row) :
  (∀ x y, f x = Some y → y.1 = x.1) →
  index (omap f df) `sublist_of` index df.
Proof.
  intros Hf. unfold index. induction df as [|x df IH]; [done|].
  simpl. destruct (f x) as [y|] eqn:Hy; simpl.
  - rewrite (Hf _ _ Hy). by constructor.
  - by constructor.
Qed.

Lemma index_read_csv {Row} (csv : list Row) :
  index (imap (λ i r, (Z.of_nat i, r)) csv) = Z.of_nat <$> seq 0 (length csv).
Proof.
  unfold index. rewrite fmap_imap. apply (imap_seq_0 csv Z.of_nat).
Qed.

Lemma NoDup_index_load_airports csv iso_rows :
  NoDup (index (load_airports csv iso_rows)).
Proof.
  unfold load_airports. cbv zeta.
  eapply sublist_NoDup; [|apply index_omap_sublist].
  - rewrite index_read_csv. apply NoDup_fmap; [apply _|apply NoDup_seq].
  - intros x y Hy. destruct (csv_latitude_deg x.2); [|done].
    destruct (csv_longitude_deg x.2); [|done]. simpl in Hy. by intros; simplify_eq.
Qed.

Lemma df_filtered_sublist airports cont country types :
  df_filtered airports cont country types `sublist_of` airports.
Proof.
  unfold df_filtered, filter_types, filter_country, filter_continent.
  etransitivity; [apply sublist_filter|].
  case_decide; destruct cont;
    repeat (etransitivity; [apply sublist_filter|]); done.
Qed.

(** Every frame [main] searches has unique index labels. *)
Lemma NoDup_index_df_filtered csv iso_rows cont country types :
  NoDup (index (df_filtered (load_airports csv iso_rows) cont country types)).
Proof.
  eapply NoDup_index_sublist; [apply df_filtered_sublist|].
  apply NoDup_index_load_airports.
Qed.
End IndexFacts.

(** * Nearest airports: proofs *)

Section NearestFacts.
Context (pin_lat pin_lon : R).
Implicit Types (df : DataFrame) (k : option Z) (res : DistFrame).

Lemma own_distance_with_distances df :
  Forall (own_distance pin_lat pin_lon) (with_distances pin_lat pin_lon df).
Proof.
  unfold with_distances. apply Forall_fmap, Forall_true. intros x.
  unfold own_distance, compose. simpl. apply haversine_km_value.
Qed.

Lemma fst_with_distances df : (with_distances pin_lat pin_lon df).*1 = df.
Proof.
  unfold with_distances. rewrite <- list_fmap_compose.
  induction df as [|x df IH]; [done|]. rewrite fmap_cons. by f_equal.
Qed.

(** The loop of [compute_distances_to_pin] raises nothing and pairs every
    label with the distance of its row. *)
Lemma compute_distances_value df :
  compute_distances_to_pin df pin_lat pin_lon
  = Some ((λ y : Label * Airport * R, (y.1.1, y.2))
            <$> with_distances pin_lat pin_lon df).
Proof.
  unfold compute_distances_to_pin, with_distances.
  rewrite <- list_fmap_compose. apply mapM_Some, Forall2_fmap_r.
  apply Forall_Forall2_diag, Forall_true. intros x. simpl.
  by rewrite haversine_km_value.
Qed.

Lemma find_closest_airports_unfold df k :
  find_closest_airports df pin_lat pin_lon k
  = closest_df ← loc df (nearest pin_lat pin_lon k df).*1.*1;
    assign_distance_km closest_df (nearest pin_lat pin_lon k df).*2.
Proof.
  unfold find_closest_airports. rewrite compute_distances_value. simpl.
  rewrite (list_sort_fmap _ distance_km) by done.
  rewrite slice_to_fmap. fold (sorted_distances pin_lat pin_lon df).
  fold (nearest pin_lat pin_lon k df).
  rewrite <- !list_fmap_compose. done.
Qed.

Lemma nearest_sublist k df :
  nearest pin_lat pin_lon k df `sublist_of` sorted_distances pin_lat pin_lon df.
Proof. unfold nearest. rewrite slice_to_take. apply sublist_take. Qed.

Lemma elem_of_sorted_distances df x :
  x ∈ sorted_distances pin_lat pin_lon df ↔ x ∈ with_distances pin_lat pin_lon df.
Proof. unfold sorted_distances. by rewrite list_sort_Permutation. Qed.

Lemma nearest_rows_in df k :
  Forall (λ t, t ∈ df) (nearest pin_lat pin_lon k df).*1.
Proof.
  apply Forall_fmap, Forall_forall. intros x Hx. simpl.
  eapply elem_of_sublist in Hx; [|apply nearest_sublist].
  apply elem_of_sorted_distances in Hx.
  rewrite <- (fst_with_distances df). by apply list_elem_of_fmap_2.
Qed.

(** Whatever [find_closest_airports] returns is the first rows of the
    sorted distances. *)
Lemma find_closest_airports_Some_inv df k res :
  find_closest_airports df pin_lat pin_lon k = Some res →
  res = nearest pin_lat pin_lon k df.
Proof.
  rewrite find_closest_airports_unfold.
  destruct (loc df _) as [closest_df|] eqn:Hloc; [|done]. simpl.
  unfold assign_distance_km. case_decide as Hlen; [|done]. intros [= <-].
  rewrite !length_fmap in Hlen.
  apply loc_exact in Hloc; [|apply nearest_rows_in|by rewrite length_fmap].
  subst closest_df. apply zip_fst_snd.
Qed.

(** With unique index labels it returns them. *)
Lemma find_closest_airports_NoDup df k :
  NoDup (index df) →
  find_closest_airports df pin_lat pin_lon k = Some (nearest pin_lat pin_lon k df).
Proof.
  intros Hnd. rewrite find_closest_airports_unfold.
  rewrite loc_NoDup by (done || apply nearest_rows_in). simpl.
  unfold assign_distance_km. rewrite decide_True by (by rewrite !length_fmap).
  by rewrite zip_fst_snd.
Qed.

(** In [main] the call always returns: the frame searched has unique
    labels. *)
Lemma find_closest_airports_main csv iso_rows cont country types k :
  let df := df_filtered (load_airports csv iso_rows) cont country types in
  find_closest_airports df pin_lat pin_lon k
  = Some (nearest pin_lat pin_lon k df).
Proof. apply find_closest_airports_NoDup, NoDup_index_df_filtered. Qed.

Lemma length_sorted_distances df :
  length (sorted_distances pin_lat pin_lon df) = length df.
Proof.
  unfold sorted_distances, with_distances.
  by rewrite length_list_sort, length_fmap.
Qed.

Lemma sorted_distances_ascending df :
  ascending (sorted_distances pin_lat pin_lon df).
Proof. apply list_sort_sorted. Qed.

(** Among the rows at one distance, those returned are the first in frame
    order. *)
Lemma nearest_ties_prefix df k (d : R) :
  filter (λ x, distance_km x = d) (nearest pin_lat pin_lon k df)
  `prefix_of` filter (λ x, distance_km x = d) (with_distances pin_lat pin_lon df).
Proof.
  unfold nearest. rewrite slice_to_take.
  rewrite <- (list_sort_filter distance_km d (with_distances pin_lat pin_lon df)).
  fold (sorted_distances pin_lat pin_lon df).
  set (n := slice_len _ _). set (S := sorted_distances pin_lat pin_lon df).
  exists (filter (λ x, distance_km x = d) (drop n S)).
  by rewrite <- filter_app, take_drop.
Qed.

Lemma nearest_rest df k :
  ∃ rest, nearest pin_lat pin_lon k df ++ rest = sorted_distances pin_lat pin_lon df.
Proof.
  unfold nearest. rewrite slice_to_take. eexists. apply take_drop.
Qed.
End NearestFacts.

(** * k-nearest search: the claims *)

Section NearestClaims.
Local Open Scope R_scope.
Implicit Types (df : DataFrame) (k : option Z) (res : DistFrame).

Lemma NoDup_two_airports : NoDup (index two_airports).
Proof.
  unfold index, two_airports. simpl. apply NoDup_cons. split.
  - intros ?%list_elem_of_singleton. done.
  - apply NoDup_singleton.
Qed.

(** C1, as amended.  For a frame with unique index labels, any pin and any
    [k], [find_closest_airports] returns rows [res] such that: their number
    is min(k, |df|) for k ≥ 0 (and max(0, |df| + k) for a negative k, the
    length of the Python slice [[:k]]); together with the rows [rest] not
    returned they are the rows of the frame, each with its own distance to
    the pin; every returned distance is at most every non-returned
    distance; and the returned rows are in ascending order of distance. *)
Theorem find_closest_airports_k_nearest df (pin_lat pin_lon : R) k :
  NoDup (index df) →
  ∃ res rest,
    find_closest_airports df pin_lat pin_lon k = Some res
    ∧ Z.of_nat (length res)
      = (let k := default K_DEFAULT k in
         if (k <? 0)%Z then Z.max 0 (Z.of_nat (length df) + k)
         else Z.min k (Z.of_nat (length df)))
    ∧ (res ++ rest).*1 ≡ₚ df
    ∧ Forall (own_distance pin_lat pin_lon) (res ++ rest)
    ∧ (∀ x y, x ∈ res → y ∈ rest → distance_km x <= distance_km y)
    ∧ ascending res.
Proof.
  intros Hnd. destruct (nearest_rest pin_lat pin_lon df k) as [rest Hrest].
  pose proof (sorted_distances_ascending pin_lat pin_lon df) as Hasc.
  rewrite <- Hrest in Hasc.
  exists (nearest pin_lat pin_lon k df), rest.
  split; [by apply find_closest_airports_NoDup|]. split.
  { unfold nearest. rewrite length_slice_to, length_sorted_distances.
    apply slice_len_spec. }
  split.
  { rewrite Hrest. unfold sorted_distances.
    by rewrite list_sort_Permutation, fst_with_distances. }
  split.
  { rewrite Hrest. unfold sorted_distances.
    rewrite list_sort_Permutation. apply own_distance_with_distances. }
  split.
  - intros x y Hx Hy.
    exact (StronglySorted_app_1_elem_of _ _ _ x y Hasc Hx Hy).
  - by apply StronglySorted_app_1_l in Hasc.
Qed.

Lemma find_closest_airports_k_nearest_witness :
  NoDup (index two_airports)
  ∧ ∃ res rest,
      find_closest_airports two_airports 51.5074 (-0.1278) (Some 1%Z) = Some res
      ∧ Z.of_nat (length res) = 1%Z
      ∧ (res ++ rest).*1 ≡ₚ two_airports
      ∧ Forall (own_distance 51.5074 (-0.1278)) (res ++ rest)
      ∧ (∀ x y, x ∈ res → y ∈ rest → distance_km x <= distance_km y)
      ∧ ascending res.
Proof.
  split; [exact NoDup_two_airports|].
  exact (find_closest_airports_k_nearest two_airports 51.5074 (-0.1278)
           (Some 1%Z) NoDup_two_airports).
Defined.

(** C1 fails as stated: on a frame in which two airports share the index
    label 0, [find_closest_airports] with k = 1 returns no frame of size
    min(1, 2) = 1.  [df.loc] yields both rows for the one label kept, and
    assigning the one distance to the two rows raises ValueError. *)
Lemma find_closest_airports_duplicate_labels :
  find_closest_airports concat_airports 51.5074 (-0.1278) (Some 1%Z) = None
  ∧ ¬ ∃ res,
        find_closest_airports concat_airports 51.5074 (-0.1278) (Some 1%Z)
        = Some res
        ∧ length res = (1 `min` length concat_airports)%nat.
Proof.
  assert (Hnone :
    find_closest_airports concat_airports 51.5074 (-0.1278) (Some 1%Z) = None).
  { unfold find_closest_airports. rewrite compute_distances_value.
    unfold concat_airports, with_distances. simpl.
    case_decide; reflexivity. }
  split; [exact Hnone|]. intros (res & Hres & _). congruence.
Qed.

(** The size part of C1 also needs k ≥ 0: a negative k drops rows from the
    far end, so k = -1 on two airports returns one row. *)
Lemma find_closest_airports_negative_k :
  ∃ res, find_closest_airports two_airports 51.5074 (-0.1278) (Some (-1)%Z)
         = Some res
         ∧ length res = 1%nat.
Proof.
  eexists. split; [apply find_closest_airports_NoDup, NoDup_two_airports|].
  unfold nearest. by rewrite length_slice_to, length_sorted_distances.
Qed.

(** C6.  Ties keep the order of the collection: when a row stands before
    another in the result and both are at the same distance from the pin,
    it stands before it in the frame as well. *)
Theorem find_closest_airports_stable df (pin_lat pin_lon : R) k res :
  find_closest_airports df pin_lat pin_lon k = Some res →
  ∀ x y, before x y res → distance_km x = distance_km y →
         before x.1 y.1 df.
Proof.
  intros ->%find_closest_airports_Some_inv x y Hb Hd.
  unfold before in *.
  assert (Hs : [x; y] `sublist_of` with_distances pin_lat pin_lon df).
  { apply (list_sort_stable distance_km); [done|]. unfold before.
    etransitivity; [exact Hb|apply nearest_sublist]. }
  apply (fmap_sublist fst) in Hs. by rewrite fst_with_distances in Hs.
Qed.

Lemma NoDup_tied_airports : NoDup (index tied_airports).
Proof.
  unfold index, tied_airports. simpl. repeat (apply NoDup_cons; split).
  - intros [?|[?|?%elem_of_nil]%elem_of_cons]%elem_of_cons; done.
  - intros [?|?%elem_of_nil]%elem_of_cons; done.
  - intros ?%elem_of_nil. done.
  - apply NoDup_nil_2.
Qed.

(** In [tied_airports] Heathrow and the helipad are at one distance from
    any pin, and Heathrow comes first in the result wherever the third
    airport is sorted to. *)
Lemma nearest_tied_airports (pin_lat pin_lon : R) :
  before (0%Z, heathrow, pin_distance pin_lat pin_lon heathrow)
         (2%Z, heathrow_helipad, pin_distance pin_lat pin_lon heathrow_helipad)
         (nearest pin_lat pin_lon None tied_airports).
Proof.
  unfold before, nearest, sorted_distances, with_distances, tied_airports.
  rewrite !fmap_cons, fmap_nil. cbn [snd].
  assert (He : pin_distance pin_lat pin_lon heathrow_helipad
               = pin_distance pin_lat pin_lon heathrow) by reflexivity.
  rewrite He. clear He.
  generalize (pin_distance pin_lat pin_lon heathrow) as dh.
  generalize (pin_distance pin_lat pin_lon kennedy) as dk.
  intros dk dh. unfold slice_to. simpl. unfold distance_km. simpl.
  destruct (decide (dh < dk)); simpl;
    rewrite ?(decide_False (P := dh < dh)) by lra;
    destruct (decide (dk < dh)); simpl;
    rewrite ?(decide_False (P := dh < dh)) by lra; simpl.
  all: repeat (first [apply sublist_nil_l | apply sublist_skip
                     | apply sublist_cons]).
Qed.

Lemma find_closest_airports_stable_witness :
  find_closest_airports tied_airports 51.5074 (-0.1278) None
  = Some (nearest 51.5074 (-0.1278) None tied_airports)
  ∧ before (0%Z, heathrow, pin_distance 51.5074 (-0.1278) heathrow)
           (2%Z, heathrow_helipad,
            pin_distance 51.5074 (-0.1278) heathrow_helipad)
           (nearest 51.5074 (-0.1278) None tied_airports)
  ∧ distance_km (0%Z, heathrow, pin_distance 51.5074 (-0.1278) heathrow)
    = distance_km (2%Z, heathrow_helipad,
                   pin_distance 51.5074 (-0.1278) heathrow_helipad)
  ∧ before (0%Z, heathrow) (2%Z, heathrow_helipad) tied_airports.
Proof.
  pose proof (find_closest_airports_NoDup 51.5074 (-0.1278) tied_airports None
                NoDup_tied_airports) as H.
  pose proof (nearest_tied_airports 51.5074 (-0.1278)) as Hb.
  assert (Hd : distance_km (0%Z, heathrow, pin_distance 51.5074 (-0.1278) heathrow)
               = distance_km (2%Z, heathrow_helipad,
                              pin_distance 51.5074 (-0.1278) heathrow_helipad))
    by reflexivity.
  split; [exact H|]. split; [exact Hb|]. split; [exact Hd|].
  exact (find_closest_airports_stable tied_airports 51.5074 (-0.1278) None _ H
           _ _ Hb Hd).
Defined.

(** C7.  On an empty collection the k-nearest operation returns an empty
    frame and raises nothing, for every pin and every [k]. *)
Theorem find_closest_airports_empty (pin_lat pin_lon : R) k :
  find_closest_airports [] pin_lat pin_lon k = Some [].
Proof.
  unfold find_closest_airports. simpl. by rewrite slice_to_nil.
Qed.

(** C10.  With unique index labels, [find_closest_airports] returns, and
    every row it returns is a row of the frame whose [distance_km] is
    [haversine_km] of the pin and that row's own [latitude_deg] and
    [longitude_deg]. *)
Theorem find_closest_airports_own_distance df (pin_lat pin_lon : R) k :
  NoDup (index df) →
  ∃ res,
    find_closest_airports df pin_lat pin_lon k = Some res
    ∧ Forall (λ x, x.1 ∈ df ∧ own_distance pin_lat pin_lon x) res.
Proof.
  intros Hnd. eexists. split; [by apply find_closest_airports_NoDup|].
  apply Forall_forall. intros x Hx.
  eapply elem_of_sublist in Hx; [|apply nearest_sublist].
  apply elem_of_sorted_distances in Hx. split.
  - rewrite <- (fst_with_distances pin_lat pin_lon df).
    by apply list_elem_of_fmap_2.
  - pose proof (own_distance_with_distances pin_lat pin_lon df) as Hall.
    by eapply Forall_forall in Hall.
Qed.

Lemma find_closest_airports_own_distance_witness :
  NoDup (index two_airports)
  ∧ ∃ res,
      find_closest_airports two_airports 51.5074 (-0.1278) None = Some res
      ∧ Forall (λ x, x.1 ∈ two_airports ∧ own_distance 51.5074 (-0.1278) x) res.
Proof.
  split; [exact NoDup_two_airports|].
  exact (find_closest_airports_own_distance two_airports 51.5074 (-0.1278)
           None NoDup_two_airports).
Defined.
End NearestClaims.

(** * Radius search: proofs *)

Section RadiusFacts.
Local Open Scope R_scope.
Context (pin_lat pin_lon : R).
Implicit Types (df : DataFrame).

Lemma dist_map_of_snoc (l : list (Label * R)) p :
  dist_map_of (l ++ [p]) = <[p.1 := p.2]> (dist_map_of l).
Proof. unfold dist_map_of. by rewrite foldl_snoc. Qed.

(** With unique labels the dictionary holds every pair of the list. *)
Lemma dist_map_of_lookup (l : list (Label * R)) i d :
  NoDup l.*1 → (i, d) ∈ l → dist_map_of l !! i = Some d.
Proof.
  induction l as [|p l IH] using rev_ind; [by intros _ ?%elem_of_nil|].
  rewrite fmap_app, dist_map_of_snoc. simpl.
  intros (Hl & Hp & _)%NoDup_app [Hin|Hin%list_elem_of_singleton]%elem_of_app.
  - rewrite lookup_insert_ne; [by apply IH|].
    intros <-. eapply Hp; [|by left].
    by apply (list_elem_of_fmap_2 fst _ (p.1, d)).
  - subst p. simpl. by rewrite lookup_insert_eq.
Qed.

Lemma slice_to_all {A} (l : list A) : slice_to (Z.of_nat (length l)) l = l.
Proof.
  unfold slice_to. rewrite (proj2 (Z.ltb_ge _ _)) by lia.
  by rewrite Nat2Z.id, firstn_all.
Qed.

Lemma nearest_all df :
  nearest pin_lat pin_lon (Some (Z.of_nat (length df))) df
  = sorted_distances pin_lat pin_lon df.
Proof.
  unfold nearest. simpl. rewrite <- (length_sorted_distances pin_lat pin_lon).
  apply slice_to_all.
Qed.

(** [df_radius] is the rows within the radius, in frame order, each with
    its own distance. *)
Lemma radius_filter_value df (radius : R) :
  NoDup (index df) →
  radius_filter df pin_lat pin_lon radius
  = Some (filter (λ x, distance_km x <= radius)
            (with_distances pin_lat pin_lon df)).
Proof.
  intros Hnd. unfold radius_filter. rewrite compute_distances_value. simpl.
  f_equal. set (m := dist_map_of _).
  assert (Hm : ∀ x, x ∈ df → m !! x.1 = Some (pin_distance pin_lat pin_lon x.2)).
  { intros x Hx. apply dist_map_of_lookup.
    - unfold with_distances. rewrite <- !list_fmap_compose.
      replace (fst ∘ _ ∘ _) with (@fst Label Airport); [exact Hnd|done].
    - unfold with_distances. rewrite <- list_fmap_compose.
      by apply (list_elem_of_fmap_2' _ _ x). }
  clearbody m. clear Hnd. induction df as [|x df IH]; [done|].
  unfold with_distances in *. rewrite !fmap_cons, filter_cons.
  rewrite <- IH by (intros y Hy; apply Hm; by right). clear IH.
  simpl. rewrite Hm by left. simpl. unfold distance_km. simpl.
  case_guard; simpl; done.
Qed.

Section WithSort.
Context (sort_values : DistFrame → DistFrame).
Context (Hsort : sorts_by_distance sort_values).

(** A row with a distance is a row of [with_distances] exactly when it is
    a row of the frame and the distance is its own. *)
Lemma elem_of_with_distances df (x : Label * Airport * R) :
  x ∈ with_distances pin_lat pin_lon df
  ↔ x.1 ∈ df ∧ own_distance pin_lat pin_lon x.
Proof.
  unfold with_distances, own_distance. rewrite list_elem_of_fmap.
  setoid_rewrite haversine_km_value. unfold pin_distance. split.
  - intros (y & -> & Hy). simpl. done.
  - intros [Hx [= Hd]]. exists x.1. split; [|done].
    destruct x as [x d]. simpl in *. unfold distance_km in Hd. simpl in Hd.
    by rewrite Hd.
Qed.

(** The table of the radius search against the k-nearest result at
    k = |df|, for a frame with unique labels. *)
Lemma radius_table_spec df (radius : R) :
  NoDup (index df) →
  ∃ full table,
    find_closest_airports df pin_lat pin_lon (Some (Z.of_nat (length df)))
    = Some full
    ∧ full.*1 ≡ₚ df
    ∧ Forall (own_distance pin_lat pin_lon) full
    ∧ radius_table sort_values df pin_lat pin_lon radius = Some table
    ∧ table ≡ₚ filter (λ x, distance_km x <= radius) full
    ∧ (∀ x, x ∈ table
            ↔ x.1 ∈ df ∧ own_distance pin_lat pin_lon x
              ∧ distance_km x <= radius)
    ∧ ascending table.
Proof.
  intros Hnd. eexists _, _.
  split; [by apply find_closest_airports_NoDup|].
  rewrite nearest_all. unfold sorted_distances.
  split; [by rewrite list_sort_Permutation, fst_with_distances|].
  split.
  { rewrite list_sort_Permutation. apply own_distance_with_distances. }
  unfold radius_table. rewrite radius_filter_value by done. simpl.
  split; [done|]. destruct (Hsort
    (filter (λ x, distance_km x <= radius) (with_distances pin_lat pin_lon df)))
    as [Hperm Hasc].
  split; [by rewrite Hperm, list_sort_Permutation|]. split; [|done].
  intros x. rewrite Hperm, list_elem_of_filter, elem_of_with_distances. tauto.
Qed.
End WithSort.
End RadiusFacts.

(** * Radius search: the claim *)

Section RadiusClaim.
Local Open Scope R_scope.

Lemma sort_values_distance_sorts : sorts_by_distance sort_values_distance.
Proof.
  intros l. unfold sort_values_distance. split.
  - apply list_sort_Permutation.
  - apply list_sort_sorted.
Qed.

(** C3.  In [main], for any radius: the k-nearest search at
    k = |collection| returns the full distance-annotated collection, every
    row of the searched frame once, each with its own distance to the
    pin; and the table of the radius search holds exactly the rows of
    that collection whose distance is at most the radius (the same rows,
    the same number of times), that is, the rows of the frame within the
    radius, each paired with its own distance, in ascending order of
    distance.  This holds for every sort that [sort_values] may be: it
    fixes no order among rows at equal distance. *)
Theorem radius_table_filters_k_nearest
    (sort_values : DistFrame → DistFrame)
    (csv : list CsvAirport) (iso_rows : list (option string * option string))
    (selected_cont_code : option string) (selected_country : string)
    (selected_types : list string) (pin_lat pin_lon radius : R) :
  sorts_by_distance sort_values →
  let df := df_filtered (load_airports csv iso_rows)
              selected_cont_code selected_country selected_types in
  ∃ full table,
    find_closest_airports df pin_lat pin_lon (Some (Z.of_nat (length df)))
    = Some full
    ∧ full.*1 ≡ₚ df
    ∧ Forall (own_distance pin_lat pin_lon) full
    ∧ radius_table sort_values df pin_lat pin_lon radius = Some table
    ∧ table ≡ₚ filter (λ x, distance_km x <= radius) full
    ∧ (∀ x, x ∈ table
            ↔ x.1 ∈ df ∧ own_distance pin_lat pin_lon x
              ∧ distance_km x <= radius)
    ∧ ascending table.
Proof.
  intros Hsort df. apply radius_table_spec; [done|].
  apply NoDup_index_df_filtered.
Qed.

Lemma radius_table_filters_k_nearest_witness :
  sorts_by_distance sort_values_distance
  ∧ let df := df_filtered (load_airports sample_csv sample_iso)
                (Some "EU"%string) "All countries"%string
                ["large_airport"%string] in
    length df = 2%nat
    ∧ ∃ full table,
        find_closest_airports df 51.5074 (-0.1278) (Some (Z.of_nat (length df)))
        = Some full
        ∧ full.*1 ≡ₚ df
        ∧ Forall (own_distance 51.5074 (-0.1278)) full
        ∧ radius_table sort_values_distance df 51.5074 (-0.1278) 500 = Some table
        ∧ table ≡ₚ filter (λ x, distance_km x <= 500) full
        ∧ (∀ x, x ∈ table
                ↔ x.1 ∈ df ∧ own_distance 51.5074 (-0.1278) x
                  ∧ distance_km x <= 500)
        ∧ ascending table.
Proof.
  split; [exact sort_values_distance_sorts|].
  split; [reflexivity|].
  exact (radius_table_filters_k_nearest sort_values_distance
           sample_csv sample_iso (Some "EU"%string) "All countries"%string
           ["large_airport"%string] 51.5074 (-0.1278) 500
           sort_values_distance_sorts).
Defined.
End RadiusClaim.

(** * Country aggregation: proofs *)

Section AggregationFacts.
Local Open Scope Z_scope.
Implicit Types (df : DataFrame) (keys : list string) (f g : string → Z).

Lemma sum_counts_Permutation (l1 l2 : list (string * Z)) :
  l1 ≡ₚ l2 → sum_counts l1 = sum_counts l2.
Proof. induction 1; simpl; lia. Qed.

Lemma sum_counts_cons (r : string * Z) (l : list (string * Z)) :
  sum_counts (r :: l) = r.2 + sum_counts l.
Proof. done. Qed.

Lemma sum_counts_add f g keys :
  sum_counts ((λ c, (c, f c + g c)) <$> keys)
  = sum_counts ((λ c, (c, f c)) <$> keys) + sum_counts ((λ c, (c, g c)) <$> keys).
Proof.
  induction keys as [|c keys IH]; [done|].
  rewrite !fmap_cons, !sum_counts_cons. simpl. lia.
Qed.

Lemma sum_counts_ext f g keys :
  (∀ c, c ∈ keys → f c = g c) →
  sum_counts ((λ c, (c, f c)) <$> keys) = sum_counts ((λ c, (c, g c)) <$> keys).
Proof.
  induction keys as [|c keys IH]; intros Hfg; [done|].
  rewrite !fmap_cons, !sum_counts_cons. simpl.
  rewrite Hfg by left. rewrite IH; [done|]. intros c' ?. apply Hfg. by right.
Qed.

Lemma sum_counts_zero keys : sum_counts ((λ c, (c, 0)) <$> keys) = 0.
Proof.
  induction keys as [|c keys IH]; [done|].
  rewrite !fmap_cons, !sum_counts_cons. simpl. lia.
Qed.

(** Over keys without repetition, one key counts a given country. *)
Lemma sum_counts_indicator (c0 : string) keys :
  NoDup keys → c0 ∈ keys →
  sum_counts ((λ c, (c, if decide (c0 = c) then 1 else 0)) <$> keys) = 1.
Proof.
  induction 1 as [|c keys Hc Hnd IH]; [by intros ?%elem_of_nil|].
  intros Hin. rewrite fmap_cons, sum_counts_cons. simpl. case_decide as Heq.
  - subst c. rewrite (sum_counts_ext _ (λ _, 0)), sum_counts_zero; [done|].
    intros c Hin'. rewrite decide_False; [done|]. by intros <-.
  - apply elem_of_cons in Hin as [?|Hin]; [done|]. rewrite IH; done.
Qed.

Lemma group_count_cons x df c :
  group_count (x :: df) c
  = (if decide (country_name x.2 = Some c ∧ is_Some (name x.2)) then 1 else 0)
    + group_count df c.
Proof.
  unfold group_count. rewrite filter_cons. case_decide; simpl; lia.
Qed.

Lemma sum_group_counts keys df :
  NoDup keys →
  (∀ x c, x ∈ df → country_name x.2 = Some c → c ∈ keys) →
  sum_counts ((λ c, (c, group_count df c)) <$> keys)
  = Z.of_nat (length (filter counted df)).
Proof.
  intros Hnd. induction df as [|x df IH]; intros Hkeys.
  - simpl. apply sum_counts_zero.
  - rewrite (sum_counts_ext _ _ _ (λ c _, group_count_cons x df c)).
    rewrite sum_counts_add, IH by (intros y c ?; apply Hkeys; by right).
    rewrite filter_cons.
    destruct (decide (counted x)) as [[[c0 Hc0] Hnm]|Hnot].
    + simpl length.
      rewrite (sum_counts_ext _ (λ c, if decide (c0 = c) then 1 else 0)).
      { rewrite sum_counts_indicator; [lia|done|].
        eapply Hkeys; [by left|done]. }
      intros c _. destruct (decide (c0 = c)) as [->|Hne].
      * by rewrite decide_True.
      * rewrite decide_False; [done|]. intros [Heq _]. congruence.
    + rewrite (sum_counts_ext _ (λ _, 0)), sum_counts_zero; [lia|].
      intros c _. rewrite decide_False; [done|]. intros [Hc Hn].
      apply Hnot. split; [by eexists|done].
Qed.

Lemma NoDup_group_keys df : NoDup (group_keys df).
Proof.
  unfold group_keys. rewrite merge_sort_Permutation. apply NoDup_remove_dups.
Qed.

Lemma elem_of_group_keys df c :
  c ∈ group_keys df ↔ ∃ x, x ∈ df ∧ country_name x.2 = Some c.
Proof.
  unfold group_keys.
  rewrite merge_sort_Permutation, elem_of_remove_dups, list_elem_of_omap.
  done.
Qed.

(** Without sorting, the counts add up to the number of counted rows. *)
Lemma sum_groupby_country_count df :
  sum_counts (groupby_country_count df) = Z.of_nat (length (filter counted df)).
Proof.
  apply sum_group_counts; [apply NoDup_group_keys|].
  intros x c Hx Hc. apply elem_of_group_keys. eauto.
Qed.

Lemma groupby_country_count_nil : groupby_country_count [] = [].
Proof. done. Qed.

Lemma groupby_country_count_nonempty df :
  Exists (λ x, is_Some (country_name x.2)) df → groupby_country_count df ≠ [].
Proof.
  intros (x & Hx & [c Hc])%Exists_exists Hnil.
  assert (Hin : c ∈ group_keys df) by (apply elem_of_group_keys; eauto).
  unfold groupby_country_count in Hnil. apply fmap_nil_inv in Hnil.
  rewrite Hnil in Hin. by apply elem_of_nil in Hin.
Qed.

(** On a frame sorted by descending count, the first row has the largest
    count and the last row the smallest. *)
Lemma get_country_min_max_extremes (counts : list (string * Z)) :
  counts ≠ [] → descending counts →
  ∃ max_info min_info,
    get_country_min_max counts = (Some max_info, Some min_info)
    ∧ max_info ∈ counts ∧ min_info ∈ counts
    ∧ ∀ r, r ∈ counts → min_info.2 ≤ r.2 ≤ max_info.2.
Proof.
  intros Hne Hdesc. destruct counts as [|mx rest] eqn:Hc; [done|].
  rewrite <- Hc in *. destruct (last counts) as [mn|] eqn:Hlast.
  2:{ apply last_None in Hlast. by rewrite Hlast in Hne. }
  exists mx, mn. rewrite Hc at 1. simpl. rewrite <- Hc, Hlast. simpl.
  split; [by destruct mx, mn|].
  split; [rewrite Hc; by left|]. split; [by apply last_Some_elem_of|].
  intros r Hr. split.
  - apply last_Some in Hlast as [l' Hl']. rewrite Hl' in Hdesc, Hr.
    apply elem_of_app in Hr as [Hr|Hr];
      [|apply list_elem_of_singleton in Hr as ->; lia].
    eapply (StronglySorted_app_1_elem_of _ _ _ r mn Hdesc); [done|by left].
  - rewrite Hc in Hdesc, Hr. apply StronglySorted_inv in Hdesc as [_ Hall].
    apply elem_of_cons in Hr as [->|Hr]; [lia|].
    by eapply Forall_forall in Hall.
Qed.

Lemma sort_values_count_desc_sorts : sorts_by_count_desc sort_values_count_desc.
Proof.
  intros l. unfold sort_values_count_desc. split.
  - apply merge_sort_Permutation.
  - assert (Transitive count_ge) by (intros x y z; unfold count_ge; lia).
    assert (Total count_ge) by (intros x y; unfold count_ge; lia).
    apply (StronglySorted_merge_sort count_ge).
Qed.
End AggregationFacts.

(** * Country aggregation: the claim *)

Section AggregationClaim.
Local Open Scope Z_scope.

(** X28.  What the aggregation computes, for any frame and any sort that
    [sort_values] may be: the counts by country add up to the number of
    rows that have both a country name and a name, hence to the size of
    the frame when no row lacks either; when some row has a country
    name, [get_country_min_max] reports two rows of the grouped result
    whose counts are the largest and the smallest of the grouped counts;
    and on an empty frame it reports (None, None). *)
Theorem country_counts_sum_extremes
    (sort_values : list (string * Z) → list (string * Z)) (df : DataFrame) :
  sorts_by_count_desc sort_values →
  sum_counts (country_counts sort_values df)
  = Z.of_nat (length (filter counted df))
  ∧ (Forall counted df →
     sum_counts (country_counts sort_values df) = Z.of_nat (length df))
  ∧ (Exists (λ x, is_Some (country_name x.2)) df →
     ∃ max_info min_info,
       country_min_max sort_values df = (Some max_info, Some min_info)
       ∧ max_info ∈ groupby_country_count df
       ∧ min_info ∈ groupby_country_count df
       ∧ ∀ r, r ∈ groupby_country_count df → min_info.2 ≤ r.2 ≤ max_info.2)
  ∧ country_min_max sort_values [] = (None, None).
Proof.
  intros Hsort.
  assert (Hsum : sum_counts (country_counts sort_values df)
                 = Z.of_nat (length (filter counted df))).
  { unfold country_counts.
    rewrite (sum_counts_Permutation _ _ (proj1 (Hsort _))).
    apply sum_groupby_country_count. }
  split; [exact Hsum|]. split; [|split].
  - intros Hall. rewrite Hsum. f_equal. f_equal.
    clear Hsum. induction Hall as [|x l Hx _ IH]; [done|].
    by rewrite filter_cons, decide_True, IH.
  - intros Hex. unfold country_min_max, country_counts.
    destruct (Hsort (groupby_country_count df)) as [Hperm Hdesc].
    destruct (get_country_min_max_extremes (sort_values (groupby_country_count df)))
      as (mx & mn & Heq & Hmx & Hmn & Hall); [|done|].
    { intros Hnil. rewrite Hnil in Hperm. symmetry in Hperm.
      apply Permutation_nil_r in Hperm.
      by apply groupby_country_count_nonempty in Hex. }
    exists mx, mn. split; [done|].
    split; [by rewrite <- Hperm|]. split; [by rewrite <- Hperm|].
    intros r Hr. apply Hall. by rewrite Hperm.
  - unfold country_min_max, country_counts. rewrite groupby_country_count_nil.
    destruct (Hsort []) as [Hperm _]. apply Permutation_nil_r in Hperm.
    by rewrite Hperm.
Qed.

Lemma country_counts_sum_extremes_witness :
  sorts_by_count_desc sort_values_count_desc
  ∧ Forall counted two_airports
  ∧ Exists (λ x : Label * Airport, is_Some (country_name x.2)) two_airports
  ∧ sum_counts (country_counts sort_values_count_desc two_airports)
    = Z.of_nat (length two_airports)
  ∧ (∃ max_info min_info,
       country_min_max sort_values_count_desc two_airports
       = (Some max_info, Some min_info)
       ∧ max_info ∈ groupby_country_count two_airports
       ∧ min_info ∈ groupby_country_count two_airports
       ∧ ∀ r, r ∈ groupby_country_count two_airports
              → min_info.2 ≤ r.2 ≤ max_info.2)
  ∧ country_min_max sort_values_count_desc [] = (None, None).
Proof.
  assert (Hall : Forall counted two_airports).
  { unfold two_airports. repeat constructor; simpl; by eexists. }
  assert (Hex : Exists (λ x : Label * Airport, is_Some (country_name x.2))
                  two_airports).
  { unfold two_airports. constructor. simpl. by eexists. }
  split; [exact sort_values_count_desc_sorts|].
  split; [exact Hall|]. split; [exact Hex|].
  pose proof (country_counts_sum_extremes sort_values_count_desc two_airports
                sort_values_count_desc_sorts) as (_ & Hsum & Hext & Hnil).
  exact (conj (Hsum Hall) (conj (Hext Hex) Hnil)).
Defined.

(** C5.  The counts by country do not add up to the size of the filtered
    collection: a file of one airfield whose [name] cell is empty loads
    and passes the filters as a collection of one row, its one group has
    the count 0, [count] having counted the cells of [name] and not the
    rows, and so the counts add up to 0 and not to 1. *)
Lemma country_counts_missing_name :
  let df := df_filtered (load_airports unnamed_csv sample_iso)
              None "All countries"%string ["small_airport"%string] in
  length df = 1%nat
  ∧ country_counts sort_values_count_desc df = [("United Kingdom"%string, 0)]
  ∧ sum_counts (country_counts sort_values_count_desc df)
    ≠ Z.of_nat (length df).
Proof. repeat split; try reflexivity. vm_compute. discriminate. Qed.
End AggregationClaim.

(** * Loading: the claim *)

Section LoadClaim.
Local Open Scope string_scope.

Lemma load_airports_country_name csv iso_rows (x : Label * Airport) :
  x ∈ load_airports csv iso_rows →
  country_name x.2
  = resolve_country (make_iso_map iso_rows) (iso_country x.2).
Proof.
  unfold load_airports. cbv zeta.
  intros (y & _ & Hy)%list_elem_of_omap.
  destruct (csv_latitude_deg y.2); [|done].
  destruct (csv_longitude_deg y.2); [|done].
  simpl in Hy. by simplify_eq.
Qed.

Lemma resolve_country_unmapped
    (iso_map : gmap (option string) (option string)) (code : string) :
  iso_map !! Some (str_upper code) = None →
  resolve_country iso_map (Some code) = Some (str_upper code).
Proof. intros Hno. unfold resolve_country. cbv zeta. simpl. by rewrite Hno. Qed.

(** C8, as amended.  A country code whose upper-case form has no entry in
    the reference map reaches [country_name] as that upper-case form: the
    loader neither fails nor leaves the cell empty, and the code is
    unchanged exactly when it is upper case already. *)
Theorem unmapped_country_code_upper csv iso_rows (x : Label * Airport) code :
  x ∈ load_airports csv iso_rows →
  iso_country x.2 = Some code →
  make_iso_map iso_rows !! Some (str_upper code) = None →
  country_name x.2 = Some (str_upper code)
  ∧ (country_name x.2 = Some code ↔ str_upper code = code).
Proof.
  intros Hx Hcode Hno. rewrite (load_airports_country_name _ _ _ Hx), Hcode.
  rewrite resolve_country_unmapped by done.
  split; [done|]. split; [by intros [= ?]|by intros ->].
Qed.

Lemma unmapped_country_code_upper_witness :
  (2%Z, pristina) ∈ load_airports sample_csv sample_iso
  ∧ iso_country pristina = Some "xk"
  ∧ make_iso_map sample_iso !! Some (str_upper "xk") = None
  ∧ country_name pristina = Some "XK".
Proof.
  assert (Hx : (2%Z, pristina) ∈ load_airports sample_csv sample_iso).
  { apply (list_elem_of_lookup_2 _ 1%nat). reflexivity. }
  assert (Hno : make_iso_map sample_iso !! Some (str_upper "xk") = None)
    by reflexivity.
  split; [exact Hx|]. split; [reflexivity|]. split; [exact Hno|].
  exact (proj1 (unmapped_country_code_upper sample_csv sample_iso
                  (2%Z, pristina) "xk" Hx eq_refl Hno)).
Defined.

(** C8 fails as stated: the code "xk" has no entry in the reference map,
    under either spelling, and its row gets the country name "XK", which is
    not the raw code. *)
Lemma unmapped_lower_case_code :
  make_iso_map sample_iso !! Some "xk" = None
  ∧ make_iso_map sample_iso !! Some "XK" = None
  ∧ (λ x : Label * Airport, (x.1, iso_country x.2, country_name x.2))
      <$> load_airports sample_csv sample_iso
    = [(0%Z, Some "GB", Some "United Kingdom"); (2%Z, Some "xk", Some "XK")]
  ∧ Some "XK" ≠ Some "xk".
Proof. repeat split; try reflexivity. discriminate. Qed.
End LoadClaim.

(** * Further properties of the k-nearest search *)

Section NearestMore.
Local Open Scope R_scope.
Implicit Types (df : DataFrame) (k : option Z) (res : DistFrame).
Implicit Types (pin_lat pin_lon : R).

Lemma pin_distance_nonneg pin_lat pin_lon (row : Airport) : 0 <= pin_distance pin_lat pin_lon row.
Proof.
  unfold pin_distance, RADIUS_KM_DEFAULT.
  pose proof (haversine_a_range pin_lat pin_lon
                (latitude_deg row) (longitude_deg row)) as Ha.
  pose proof (asin_nonneg _ (sqrt_unit_range _ Ha)). lra.
Qed.

Lemma haversine_km_pin_distance pin_lat pin_lon (row : Airport) :
  haversine_km pin_lat pin_lon (latitude_deg row) (longitude_deg row) None
  = Some (pin_distance pin_lat pin_lon row).
Proof. apply haversine_km_value. Qed.

(** X6.  What [compute_distances_to_pin] returns, whenever it returns:
    one pair per row of the frame, in frame order, holding the row's
    index label and the distance [haversine_km] gives for that row, which
    is not negative. *)
Theorem compute_distances_to_pin_rows df pin_lat pin_lon
    (distances : list (Label * R)) :
  compute_distances_to_pin df pin_lat pin_lon = Some distances →
  distances.*1 = index df
  ∧ Forall2 (λ (x : Label * Airport) (p : Label * R),
               haversine_km pin_lat pin_lon
                 (latitude_deg x.2) (longitude_deg x.2) None = Some p.2)
            df distances
  ∧ Forall (λ p : Label * R, 0 <= p.2) distances.
Proof.
  rewrite compute_distances_value. intros [= <-].
  unfold with_distances, index. rewrite <- !list_fmap_compose.
  split; [done|]. split.
  - apply Forall2_fmap_r, Forall_Forall2_diag, Forall_true. intros x.
    apply haversine_km_pin_distance.
  - apply Forall_fmap, Forall_true. intros x. apply pin_distance_nonneg.
Qed.

Lemma compute_distances_to_pin_rows_witness :
  compute_distances_to_pin two_airports 51.5074 (-0.1278)
  = Some [(0%Z, pin_distance 51.5074 (-0.1278) heathrow);
          (1%Z, pin_distance 51.5074 (-0.1278) kennedy)]
  ∧ Forall (λ p : Label * R, 0 <= p.2)
           [(0%Z, pin_distance 51.5074 (-0.1278) heathrow);
            (1%Z, pin_distance 51.5074 (-0.1278) kennedy)].
Proof.
  pose proof (compute_distances_value 51.5074 (-0.1278) two_airports) as H.
  split; [exact H|].
  exact (proj2 (proj2 (compute_distances_to_pin_rows two_airports
                         51.5074 (-0.1278) _ H))).
Defined.

Lemma slice_to_nonneg {A} (k : Z) (l : list A) :
  (0 ≤ k)%Z → slice_to k l = take (Z.to_nat k) l.
Proof. intros Hk. unfold slice_to. by rewrite (proj2 (Z.ltb_ge _ _)). Qed.

(** X7.  Asking for more airports only appends: with unique labels and
    0 ≤ k1 ≤ k2, the result for k1 is the beginning of the result for
    k2. *)
Theorem find_closest_airports_prefix df pin_lat pin_lon (k1 k2 : Z) :
  NoDup (index df) → (0 ≤ k1 ≤ k2)%Z →
  ∃ res1 res2,
    find_closest_airports df pin_lat pin_lon (Some k1) = Some res1
    ∧ find_closest_airports df pin_lat pin_lon (Some k2) = Some res2
    ∧ res1 `prefix_of` res2.
Proof.
  intros Hnd Hk. eexists _, _.
  split; [by apply find_closest_airports_NoDup|].
  split; [by apply find_closest_airports_NoDup|].
  unfold nearest. simpl. rewrite !slice_to_nonneg by lia.
  replace (Z.to_nat k1) with (Z.to_nat k1 `min` Z.to_nat k2)%nat by lia.
  rewrite <- take_take. apply prefix_take.
Qed.

Lemma find_closest_airports_prefix_witness :
  NoDup (index two_airports) ∧ (0 ≤ 1 ≤ 3)%Z
  ∧ ∃ res1 res2,
      find_closest_airports two_airports 51.5074 (-0.1278) (Some 1%Z) = Some res1
      ∧ find_closest_airports two_airports 51.5074 (-0.1278) (Some 3%Z) = Some res2
      ∧ res1 `prefix_of` res2.
Proof.
  assert (Hk : (0 ≤ 1 ≤ 3)%Z) by lia.
  split; [exact NoDup_two_airports|]. split; [exact Hk|].
  exact (find_closest_airports_prefix two_airports 51.5074 (-0.1278) 1 3
           NoDup_two_airports Hk).
Defined.

(** X8.  The first row returned is a nearest airport: with unique labels,
    a frame that is not empty and k > 0, the result has a first row, it is
    a row of the frame, its distance is nonnegative and no row of the
    frame is nearer to the pin. *)
Theorem find_closest_airports_first df pin_lat pin_lon k :
  NoDup (index df) → df ≠ [] → (0 < default K_DEFAULT k)%Z →
  ∃ x res,
    find_closest_airports df pin_lat pin_lon k = Some (x :: res)
    ∧ x.1 ∈ df
    ∧ 0 <= distance_km x
    ∧ Forall (λ y : Label * Airport,
                ∃ d, haversine_km pin_lat pin_lon
                       (latitude_deg y.2) (longitude_deg y.2) None = Some d
                     ∧ distance_km x <= d) df.
Proof.
  intros Hnd Hne Hk.
  pose proof (sorted_distances_ascending pin_lat pin_lon df) as Hasc.
  pose proof (length_sorted_distances pin_lat pin_lon df) as Hlen.
  pose proof (find_closest_airports_NoDup pin_lat pin_lon df k Hnd) as Hres.
  unfold nearest in Hres. rewrite slice_to_nonneg in Hres by lia.
  assert (Hin : ∀ z, z ∈ sorted_distances pin_lat pin_lon df
                     ↔ z ∈ with_distances pin_lat pin_lon df)
    by (intros z; apply elem_of_sorted_distances).
  destruct (sorted_distances pin_lat pin_lon df) as [|x S].
  { destruct df; [done|discriminate]. }
  destruct (Z.to_nat (default K_DEFAULT k)) as [|n] eqn:Hn; [lia|].
  simpl in Hres. exists x, (take n S). split; [done|].
  apply StronglySorted_inv in Hasc as [_ Hall].
  assert (Hx : x ∈ with_distances pin_lat pin_lon df) by (apply Hin; left).
  apply list_elem_of_fmap in Hx as (x0 & -> & Hx0). simpl.
  split; [done|]. split; [apply pin_distance_nonneg|].
  apply Forall_forall. intros y Hy. eexists.
  split; [apply haversine_km_pin_distance|].
  assert (Hy' : (y, pin_distance pin_lat pin_lon y.2)
                ∈ with_distances pin_lat pin_lon df)
    by (by apply (list_elem_of_fmap_2 (λ x, (x, pin_distance pin_lat pin_lon x.2)))).
  apply Hin, elem_of_cons in Hy' as [Heq|Hy'].
  - injection Heq as -> Hd. unfold distance_km. simpl. lra.
  - eapply Forall_forall in Hall; [|exact Hy']. exact Hall.
Qed.

Lemma find_closest_airports_first_witness :
  NoDup (index two_airports) ∧ two_airports ≠ []
  ∧ (0 < default K_DEFAULT None)%Z
  ∧ ∃ x res,
      find_closest_airports two_airports 51.5074 (-0.1278) None = Some (x :: res)
      ∧ x.1 ∈ two_airports
      ∧ 0 <= distance_km x
      ∧ Forall (λ y : Label * Airport,
                  ∃ d, haversine_km 51.5074 (-0.1278)
                         (latitude_deg y.2) (longitude_deg y.2) None = Some d
                       ∧ distance_km x <= d) two_airports.
Proof.
  assert (Hne : two_airports ≠ []) by discriminate.
  assert (Hk : (0 < default K_DEFAULT None)%Z) by reflexivity.
  split; [exact NoDup_two_airports|]. split; [exact Hne|]. split; [exact Hk|].
  exact (find_closest_airports_first two_airports 51.5074 (-0.1278) None
           NoDup_two_airports Hne Hk).
Defined.

Lemma loc_length_iff {Row} (df : Frame Row) (T : list (Label * Row)) :
  Forall (λ t, t ∈ df) T →
  ∃ c, loc df T.*1 = Some c
       ∧ (length c = length T
          ↔ Forall (λ t, length (filter (λ y, y.1 = t.1) df) = 1%nat) T).
Proof.
  induction 1 as [|t T Ht _ (c & Hc & IH)]; [by exists []|].
  rewrite fmap_cons, loc_cons, Hc. unfold loc_label.
  assert (Hin : t ∈ filter (λ y, y.1 = t.1) df)
    by (by apply list_elem_of_filter).
  destruct (filter (λ y, y.1 = t.1) df) as [|r rows] eqn:Hf;
    [by apply elem_of_nil in Hin|].
  simpl. eexists. split; [done|].
  pose proof (loc_length_ge _ _ _ Hc) as Hge. rewrite length_fmap in Hge.
  rewrite Forall_cons, <- IH. simpl. rewrite Hf, length_app. simpl. lia.
Qed.

(** X9.  When [find_closest_airports] raises after the distances have
    been computed: it returns a frame exactly when each of the pairs it is
    to return, the first k of the computed distances sorted ascending,
    carries a label that one row of the frame carries and no other.  A
    repeated label among the rows left out does no harm. *)
Theorem find_closest_airports_returns_iff df pin_lat pin_lon k
    (distances : list (Label * R)) :
  compute_distances_to_pin df pin_lat pin_lon = Some distances →
  is_Some (find_closest_airports df pin_lat pin_lon k)
  ↔ Forall (λ p : Label * R,
              length (filter (λ y : Label * Airport, y.1 = p.1) df) = 1%nat)
           (slice_to (default K_DEFAULT k) (list_sort snd distances)).
Proof.
  rewrite compute_distances_value. intros [= <-].
  rewrite (list_sort_fmap _ distance_km) by done.
  rewrite slice_to_fmap, Forall_fmap.
  fold (sorted_distances pin_lat pin_lon df).
  fold (nearest pin_lat pin_lon k df).
  rewrite find_closest_airports_unfold.
  destruct (loc_length_iff df (nearest pin_lat pin_lon k df).*1
              (nearest_rows_in pin_lat pin_lon df k)) as (c & Hc & Hiff).
  rewrite Hc. simpl. unfold assign_distance_km.
  rewrite !length_fmap in *. rewrite Forall_fmap in Hiff.
  case_decide as Hlen.
  - split; [intros _|by eexists]. by apply Hiff.
  - split; [by intros [? ?]|]. intros HF. by apply Hiff in HF.
Qed.

Lemma find_closest_airports_returns_iff_witness :
  compute_distances_to_pin concat_airports 51.5074 (-0.1278)
  = Some [(0%Z, pin_distance 51.5074 (-0.1278) heathrow);
          (0%Z, pin_distance 51.5074 (-0.1278) kennedy)]
  ∧ (is_Some (find_closest_airports concat_airports 51.5074 (-0.1278) (Some 1%Z))
     ↔ Forall (λ p : Label * R,
                 length (filter (λ y : Label * Airport, y.1 = p.1)
                           concat_airports) = 1%nat)
              (slice_to 1 (list_sort snd
                 [(0%Z, pin_distance 51.5074 (-0.1278) heathrow);
                  (0%Z, pin_distance 51.5074 (-0.1278) kennedy)]))).
Proof.
  pose proof (compute_distances_value 51.5074 (-0.1278) concat_airports) as H.
  split; [exact H|].
  exact (find_closest_airports_returns_iff concat_airports 51.5074 (-0.1278)
           (Some 1%Z) _ H).
Defined.
End NearestMore.

(** * Further properties of the radius search *)

Section RadiusMore.
Local Open Scope R_scope.
Implicit Types (df : DataFrame) (pin_lat pin_lon radius : R).

Lemma filter_fmap_comm {A B} (f : A → B) (P : B → Prop)
    `{!∀ y, Decision (P y)} (l : list A) :
  filter P (f <$> l) = f <$> filter (λ x, P (f x)) l.
Proof.
  induction l as [|x l IH]; [done|].
  rewrite fmap_cons, !filter_cons, IH. by case_decide.
Qed.

(** The dictionary keeps, for a label, the distance of the last pair. *)
Lemma dist_map_of_last (l : list (Label * R)) (i : Label) :
  dist_map_of l !! i = snd <$> last (filter (λ p, p.1 = i) l).
Proof.
  induction l as [|p l IH] using rev_ind; [done|].
  rewrite dist_map_of_snoc, filter_app, last_app, filter_cons, filter_nil.
  case_decide as Hp.
  - subst i. simpl. by rewrite lookup_insert_eq.
  - simpl. by rewrite lookup_insert_ne.
Qed.

Lemma dist_map_of_rows pin_lat pin_lon df (i : Label) :
  dist_map_of ((λ y : Label * Airport * R, (y.1.1, y.2))
                 <$> with_distances pin_lat pin_lon df) !! i
  = label_distance pin_lat pin_lon df i.
Proof.
  unfold label_distance, with_distances.
  rewrite dist_map_of_last, <- list_fmap_compose, filter_fmap_comm, fmap_last.
  simpl. by destruct (last _).
Qed.

Lemma radius_filter_unfold df pin_lat pin_lon radius :
  radius_filter df pin_lat pin_lon radius
  = Some (omap (λ x : Label * Airport,
                  d ← label_distance pin_lat pin_lon df x.1;
                  guard (d <= radius);; Some (x, d)) df).
Proof.
  unfold radius_filter. rewrite compute_distances_value. simpl. f_equal.
  apply list_omap_ext, Forall2_fmap_l, Forall_Forall2_diag, Forall_true.
  intros x. simpl. by rewrite dist_map_of_rows.
Qed.

Lemma label_distance_nonneg pin_lat pin_lon df (i : Label) (d : R) :
  label_distance pin_lat pin_lon df i = Some d → 0 <= d.
Proof.
  unfold label_distance. destruct (last _) as [y|]; [|done].
  intros [= <-]. apply pin_distance_nonneg.
Qed.

Lemma radius_omap_sublist (g : Label * Airport → option R) radius
    (l : list (Label * Airport)) :
  (omap (λ x, d ← g x; guard (d <= radius);; Some (x, d)) l).*1
  `sublist_of` l.
Proof.
  induction l as [|x l IH]; [done|]. simpl.
  destruct (g x) as [d|]; simpl; [|by constructor].
  case_guard; simpl; by constructor.
Qed.

Lemma radius_omap_mono (g : Label * Airport → option R) (r1 r2 : R)
    (l : list (Label * Airport)) :
  r1 <= r2 →
  omap (λ x, d ← g x; guard (d <= r1);; Some (x, d)) l
  `sublist_of` omap (λ x, d ← g x; guard (d <= r2);; Some (x, d)) l.
Proof.
  intros Hr. induction l as [|x l IH]; [done|]. simpl.
  destruct (g x) as [d|]; simpl; [|done].
  destruct (decide (d <= r1)) as [H1|H1].
  - rewrite !option_guard_True by lra. simpl. by constructor.
  - rewrite (option_guard_False (d <= r1)) by done. simpl.
    case_guard; simpl; [by constructor|done].
Qed.

Lemma radius_omap_none (g : Label * Airport → option R) radius
    (l : list (Label * Airport)) :
  (∀ x d, g x = Some d → radius < d) →
  omap (λ x, d ← g x; guard (d <= radius);; Some (x, d)) l = [].
Proof.
  intros Hg. induction l as [|x l IH]; [done|]. simpl.
  destruct (g x) as [d|] eqn:Hd; simpl; [|done].
  apply Hg in Hd. rewrite option_guard_False by lra. done.
Qed.


(** X11.  A larger radius keeps more: for r1 ≤ r2 the rows within r1 are
    rows within r2, in the same order and with the same distances. *)
Theorem radius_filter_monotone df pin_lat pin_lon (r1 r2 : R) :
  r1 <= r2 →
  ∃ res1 res2,
    radius_filter df pin_lat pin_lon r1 = Some res1
    ∧ radius_filter df pin_lat pin_lon r2 = Some res2
    ∧ res1 `sublist_of` res2.
Proof.
  intros Hr. eexists _, _. rewrite !radius_filter_unfold.
  split; [done|]. split; [done|]. by apply radius_omap_mono.
Qed.

Lemma radius_filter_monotone_witness :
  100 <= 500
  ∧ ∃ res1 res2,
      radius_filter two_airports 51.5074 (-0.1278) 100 = Some res1
      ∧ radius_filter two_airports 51.5074 (-0.1278) 500 = Some res2
      ∧ res1 `sublist_of` res2.
Proof.
  assert (Hr : 100 <= 500) by lra.
  split; [exact Hr|].
  exact (radius_filter_monotone two_airports 51.5074 (-0.1278) 100 500 Hr).
Defined.

(** X12.  A negative radius finds nothing: distances are nonnegative, so
    the result is the empty frame, on every frame. *)
Theorem radius_filter_negative df pin_lat pin_lon radius :
  radius < 0 → radius_filter df pin_lat pin_lon radius = Some [].
Proof.
  intros Hr. rewrite radius_filter_unfold. f_equal.
  apply radius_omap_none. intros x d Hd%label_distance_nonneg. lra.
Qed.

Lemma radius_filter_negative_witness :
  -1 < 0 ∧ radius_filter two_airports 51.5074 (-0.1278) (-1) = Some [].
Proof.
  assert (Hr : -1 < 0) by lra.
  split; [exact Hr|].
  exact (radius_filter_negative two_airports 51.5074 (-0.1278) (-1) Hr).
Defined.








End RadiusMore.

(** * Strings and option lists: proofs *)

Section StringFacts.
Local Open Scope string_scope.

Lemma elem_of_unique (l : list string) (x : string) : x ∈ unique l ↔ x ∈ l.
Proof.
  induction l as [|y l IH]; simpl; [done|].
  rewrite !elem_of_cons, list_elem_of_filter, IH.
  destruct (decide (x = y)); tauto.
Qed.

Lemma NoDup_unique (l : list string) : NoDup (unique l).
Proof.
  induction l as [|y l IH]; simpl; [constructor|].
  apply NoDup_cons. split.
  - intros [Hne _]%list_elem_of_filter. done.
  - by apply NoDup_filter.
Qed.

Lemma sorted_strings_sorted (l : list string) :
  StronglySorted String.le (sorted_strings l).
Proof. apply (StronglySorted_merge_sort String.le); apply _. Qed.

Lemma sorted_strings_Permutation (l : list string) : sorted_strings l ≡ₚ l.
Proof. apply merge_sort_Permutation. Qed.

(** The shape of every option list of [main]: [sorted(s.dropna().unique())]. *)
Lemma sorted_unique_spec (l : list string) :
  StronglySorted String.le (sorted_strings (unique l))
  ∧ NoDup (sorted_strings (unique l))
  ∧ ∀ x, x ∈ sorted_strings (unique l) ↔ x ∈ l.
Proof.
  split; [apply sorted_strings_sorted|]. split.
  - rewrite sorted_strings_Permutation. apply NoDup_unique.
  - intros x. by rewrite sorted_strings_Permutation, elem_of_unique.
Qed.

Lemma filter_ext_in {A} (P Q : A → Prop) `{!∀ x, Decision (P x)}
    `{!∀ x, Decision (Q x)} (l : list A) :
  (∀ x, x ∈ l → P x ↔ Q x) → filter P l = filter Q l.
Proof.
  induction l as [|x l IH]; intros Hpq; [done|].
  rewrite !filter_cons, IH by (intros y ?; apply Hpq; by right).
  destruct (Hpq x) as [H1 H2]; [left|].
  repeat case_decide; tauto.
Qed.

(** A dictionary built pair by pair answers with the value of the last
    pair under the key. *)
Lemma dict_of_pairs_last {K V} `{Countable K} (pairs : list (K * V)) (k : K) :
  dict_of_pairs pairs !! k = snd <$> last (filter (λ p, p.1 = k) pairs).
Proof.
  unfold dict_of_pairs.
  induction pairs as [|p l IH] using rev_ind; [done|].
  rewrite foldl_snoc, filter_app, last_app, filter_cons, filter_nil.
  case_decide as Hp.
  - subst k. simpl. by rewrite lookup_insert_eq.
  - simpl. by rewrite lookup_insert_ne.
Qed.
End StringFacts.

(** * Further properties of loading *)

Section LoadMore.
Local Open Scope Z_scope.

Lemma StronglySorted_sublist {A} (R : relation A) (l1 l2 : list A) :
  l1 `sublist_of` l2 → StronglySorted R l2 → StronglySorted R l1.
Proof.
  induction 1 as [|x l1 l2 Hsub IH|x l1 l2 Hsub IH]; intros Hs; [done| |].
  - apply StronglySorted_inv in Hs as [Hs Hall]. constructor; [by apply IH|].
    eapply Forall_forall. intros y Hy. eapply Forall_forall in Hall; [done|].
    by eapply elem_of_sublist.
  - apply StronglySorted_inv in Hs as [Hs _]. by apply IH.
Qed.

Lemma StronglySorted_seq_Z (n m : nat) :
  StronglySorted Z.lt (Z.of_nat <$> seq n m).
Proof.
  revert n. induction m as [|m IH]; intros n; simpl; constructor; [apply IH|].
  apply Forall_fmap, Forall_forall. intros j Hj%elem_of_seq. simpl. lia.
Qed.

Lemma length_omap_rows {B} (F : Label * CsvAirport → option B)
    (P : CsvAirport → Prop) `{!∀ r, Decision (P r)}
    (csv : list CsvAirport) (g : nat → Z) :
  (∀ i r, is_Some (F (i, r)) ↔ P r) →
  length (omap F (imap (λ i r, (g i, r)) csv)) = length (filter P csv).
Proof.
  intros HF. revert g. induction csv as [|r csv IH]; intros g; [done|].
  rewrite imap_cons, filter_cons.
  change (imap ((λ i r, (g i, r)) ∘ S) csv)
    with (imap (λ i r, ((g ∘ S) i, r)) csv).
  specialize (IH (g ∘ S)).
  change (omap F ((g 0%nat, r) :: imap (λ i r, ((g ∘ S) i, r)) csv))
    with (match F (g 0%nat, r) with
          | Some b => b :: omap F (imap (λ i r, ((g ∘ S) i, r)) csv)
          | None => omap F (imap (λ i r, ((g ∘ S) i, r)) csv)
          end).
  destruct (F (g 0%nat, r)) as [b|] eqn:Hb.
  - rewrite decide_True by (apply (HF (g 0%nat)); by eexists).
    rewrite !length_cons. f_equal. exact IH.
  - rewrite decide_False; [exact IH|].
    intros [b Hb']%(HF (g 0%nat)). congruence.
Qed.


(** X15.  The loaded frame keeps the order of the file: its index labels
    are strictly ascending, so no label repeats, and it has as many rows
    as the file has rows with both coordinates. *)
Theorem load_airports_index csv iso_rows :
  StronglySorted Z.lt (index (load_airports csv iso_rows))
  ∧ NoDup (index (load_airports csv iso_rows))
  ∧ length (load_airports csv iso_rows)
    = length (filter (λ r, is_Some (csv_latitude_deg r)
                           ∧ is_Some (csv_longitude_deg r)) csv).
Proof.
  split; [|split; [apply NoDup_index_load_airports|]].
  - unfold load_airports. cbv zeta.
    eapply StronglySorted_sublist; [apply index_omap_sublist|].
    + intros x y Hy. destruct (csv_latitude_deg x.2); [|done].
      destruct (csv_longitude_deg x.2); [|done]. simpl in Hy.
      by simplify_eq.
    + rewrite index_read_csv. apply StronglySorted_seq_Z.
  - unfold load_airports. cbv zeta.
    apply (length_omap_rows _ _ csv Z.of_nat). intros i r. simpl.
    destruct (csv_latitude_deg r), (csv_longitude_deg r); simpl;
      split; try (intros [? ?]; done); try (intros [[? ?] [? ?]]; done);
      intros _; try (by eexists); split; by eexists.
Qed.

(** X16.  How a cell of [iso_country] is resolved: its name is that of
    the last row of the reference table whose code equals it when both
    are upper-cased, a missing cell being equal to a missing code only,
    and the upper-cased cell itself when the table has no such row. *)
Theorem resolve_country_last_row
    (iso_rows : list (option string * option string)) (cell : option string) :
  resolve_country (make_iso_map iso_rows) cell
  = match last (filter (λ r : option string * option string,
                          str_upper <$> r.1 = str_upper <$> cell) iso_rows) with
    | Some r => r.2
    | None => str_upper <$> cell
    end.
Proof.
  unfold resolve_country, make_iso_map. cbv zeta.
  rewrite dict_of_pairs_last, filter_fmap_comm, fmap_last. simpl.
  by destruct (last _).
Qed.
End LoadMore.

(** * The filters and option lists of [main]: proofs *)

Section FilterMore.
Local Open Scope string_scope.
Implicit Types (df airports : DataFrame).

Lemma isin_Some (t : string) (values : list string) :
  isin (Some t) values ↔ t ∈ values.
Proof. simpl. apply bool_decide_spec. Qed.

Lemma isin_None (values : list string) : ¬ isin None values.
Proof. simpl. tauto. Qed.

(** X18.  The types offered by the third select box: ascending, each
    once, and exactly the types that occur in the frame; a missing type
    is not offered. *)
Theorem get_sorted_types_spec df :
  StronglySorted String.le (get_sorted_types df)
  ∧ NoDup (get_sorted_types df)
  ∧ ∀ t, t ∈ get_sorted_types df
         ↔ ∃ x : Label * Airport, x ∈ df ∧ type x.2 = Some t.
Proof.
  unfold get_sorted_types.
  destruct (sorted_unique_spec (omap (λ x : Label * Airport, type x.2) df))
    as (Hs & Hn & He).
  split; [done|]. split; [done|]. intros t.
  by rewrite He, list_elem_of_omap.
Qed.

Lemma elem_of_get_sorted_types df (t : string) :
  t ∈ get_sorted_types df ↔ ∃ x : Label * Airport, x ∈ df ∧ type x.2 = Some t.
Proof.
  unfold get_sorted_types.
  destruct (sorted_unique_spec (omap (λ x : Label * Airport, type x.2) df))
    as (_ & _ & He).
  by rewrite He, list_elem_of_omap.
Qed.

(** X19.  With every offered type selected, which is the default of the
    multiselect, the type filter removes exactly the rows that have no
    type. *)
Theorem filter_types_default df :
  filter_types (get_sorted_types df) df
  = filter (λ x : Label * Airport, is_Some (type x.2)) df.
Proof.
  unfold filter_types. apply filter_ext_in. intros x Hx.
  destruct (type x.2) as [t|] eqn:Ht.
  - rewrite isin_Some, elem_of_get_sorted_types. split; [by eexists|eauto].
  - split; [by intros ?%isin_None|by intros [? ?]].
Qed.

Lemma elem_of_filter_continent airports cont (x : Label * Airport) :
  x ∈ filter_continent cont airports
  ↔ x ∈ airports
    ∧ match cont with Some c => continent x.2 = Some c | None => True end.
Proof.
  destruct cont as [c|]; simpl; [|tauto].
  rewrite list_elem_of_filter. tauto.
Qed.

Lemma elem_of_filter_country airports country (x : Label * Airport) :
  x ∈ filter_country country airports
  ↔ x ∈ airports
    ∧ (country = "All countries" ∨ country_name x.2 = Some country).
Proof.
  unfold filter_country. case_decide as Hc; [tauto|].
  rewrite list_elem_of_filter. tauto.
Qed.

Lemma filter_continent_filter airports cont (P : Label * Airport → Prop)
    `{!∀ x, Decision (P x)} :
  filter P (filter_continent cont airports)
  = filter_continent cont (filter P airports).
Proof.
  destruct cont as [c|]; simpl; [|done].
  rewrite !list_filter_filter. apply list_filter_iff. tauto.
Qed.

Lemma filter_country_filter airports country (P : Label * Airport → Prop)
    `{!∀ x, Decision (P x)} :
  filter P (filter_country country airports)
  = filter_country country (filter P airports).
Proof.
  unfold filter_country. case_decide; [done|].
  rewrite !list_filter_filter. apply list_filter_iff. tauto.
Qed.

Lemma elem_of_df_filtered airports (cont : option string) (country : string)
    (types : list string) (x : Label * Airport) :
  x ∈ df_filtered airports cont country types
  ↔ x ∈ airports
    ∧ match cont with Some c => continent x.2 = Some c | None => True end
    ∧ (country = "All countries" ∨ country_name x.2 = Some country)
    ∧ isin (type x.2) types.
Proof.
  unfold df_filtered, filter_types.
  rewrite list_elem_of_filter, elem_of_filter_country,
    elem_of_filter_continent. tauto.
Qed.

(** X20.  The three filters amount to one conjunction: a row is in
    [df_filtered] exactly when it is a row of the frame on the selected
    continent (any, for "All continents"), in the selected country (any,
    for "All countries") and of a selected type; applying the filters in
    the opposite order, type first, gives the same frame. *)
Theorem df_filtered_spec airports (selected_cont_code : option string)
    (selected_country : string) (selected_types : list string) :
  (∀ x : Label * Airport,
     x ∈ df_filtered airports selected_cont_code selected_country selected_types
     ↔ x ∈ airports
       ∧ match selected_cont_code with
         | Some c => continent x.2 = Some c
         | None => True
         end
       ∧ (selected_country = "All countries"
          ∨ country_name x.2 = Some selected_country)
       ∧ isin (type x.2) selected_types)
  ∧ df_filtered airports selected_cont_code selected_country selected_types
    = filter_continent selected_cont_code
        (filter_country selected_country
           (filter_types selected_types airports)).
Proof.
  split.
  - intros x. apply elem_of_df_filtered.
  - unfold df_filtered, filter_types.
    rewrite filter_country_filter, filter_continent_filter.
    unfold filter_country. case_decide; [done|].
    apply filter_continent_filter.
Qed.

Lemma name_to_code_lookup (codes : list string) (selected : string) :
  name_to_code codes !! selected
  = last (filter (λ c, get_continent_full_name c = selected) codes).
Proof.
  unfold name_to_code, code_to_name_items.
  rewrite dict_of_pairs_last, <- list_fmap_compose, filter_fmap_comm, fmap_last.
  simpl. by destruct (last _).
Qed.

Lemma elem_of_continent_codes airports (c : string) :
  c ∈ continent_codes airports
  ↔ ∃ x : Label * Airport, x ∈ airports ∧ continent x.2 = Some c.
Proof.
  unfold continent_codes.
  destruct (sorted_unique_spec
              (omap (λ x : Label * Airport, continent x.2) airports))
    as (_ & _ & He).
  by rewrite He, list_elem_of_omap.
Qed.

(** X21.  Every entry of the continent select box can be chosen: the
    lookup in [name_to_code] raises no KeyError.  "All continents" keeps
    the frame; any other entry is the full name of a continent code of
    the frame, and the result is the rows with that code, of which there
    is at least one. *)
Theorem select_continent_options airports (selected_cont : string) :
  selected_cont ∈ cont_display (continent_codes airports) →
  ∃ code df_cont,
    select_continent selected_cont airports = Some (code, df_cont)
    ∧ df_cont = filter_continent code airports
    ∧ df_cont `sublist_of` airports
    ∧ match code with
      | None => selected_cont = "All continents"
      | Some c => get_continent_full_name c = selected_cont ∧ df_cont ≠ []
      end.
Proof.
  intros Hsel. unfold select_continent. case_decide as Hall.
  { exists None, airports. by repeat split. }
  unfold cont_display in Hsel. apply elem_of_cons in Hsel as [?|Hsel]; [done|].
  unfold code_to_name_items in Hsel. rewrite <- list_fmap_compose in Hsel.
  apply list_elem_of_fmap in Hsel as (c & Hname & Hc). simpl in Hname.
  rewrite name_to_code_lookup.
  destruct (last _) as [c'|] eqn:Hlast.
  2:{ apply last_None in Hlast.
      assert (Hin : c ∈ filter (λ c, get_continent_full_name c = selected_cont)
                          (continent_codes airports))
        by (by apply list_elem_of_filter).
      rewrite Hlast in Hin. by apply elem_of_nil in Hin. }
  apply last_Some_elem_of, list_elem_of_filter in Hlast as [Hname' Hc'].
  simpl. eexists _, _. split; [done|]. split; [done|].
  split; [apply sublist_filter|]. split; [done|].
  apply elem_of_continent_codes in Hc' as (x & Hx & Hcont).
  intros Hnil.
  assert (Hin : x ∈ filter (λ x : Label * Airport, continent x.2 = Some c')
                      airports)
    by (by apply list_elem_of_filter).
  rewrite Hnil in Hin. by apply elem_of_nil in Hin.
Qed.

Lemma select_continent_options_witness :
  "Europe" ∈ cont_display (continent_codes (load_airports sample_csv sample_iso))
  ∧ ∃ code df_cont,
      select_continent "Europe" (load_airports sample_csv sample_iso)
      = Some (code, df_cont)
      ∧ df_cont = filter_continent code (load_airports sample_csv sample_iso)
      ∧ df_cont `sublist_of` load_airports sample_csv sample_iso
      ∧ match code with
        | None => "Europe" = "All continents"
        | Some c => get_continent_full_name c = "Europe" ∧ df_cont ≠ []
        end.
Proof.
  assert (Hsel : "Europe" ∈ cont_display
                   (continent_codes (load_airports sample_csv sample_iso))).
  { apply (list_elem_of_lookup_2 _ 1%nat). reflexivity. }
  split; [exact Hsel|].
  exact (select_continent_options (load_airports sample_csv sample_iso)
           "Europe" Hsel).
Defined.

(** X22.  The countries offered by the second select box are ascending,
    each once, and exactly the country names that occur in the
    continent's frame; choosing any of them (other than a country that
    is itself called "All countries") gives a frame that is not empty and
    holds only rows of that country. *)
Theorem country_list_spec (df_cont : DataFrame) :
  StronglySorted String.le (country_list df_cont)
  ∧ NoDup (country_list df_cont)
  ∧ (∀ c, c ∈ country_list df_cont
          ↔ ∃ x : Label * Airport, x ∈ df_cont ∧ country_name x.2 = Some c)
  ∧ ∀ c, c ∈ country_list df_cont → c ≠ "All countries" →
         filter_country c df_cont ≠ []
         ∧ Forall (λ x : Label * Airport, country_name x.2 = Some c)
                  (filter_country c df_cont).
Proof.
  unfold country_list.
  destruct (sorted_unique_spec
              (omap (λ x : Label * Airport, country_name x.2) df_cont))
    as (Hs & Hn & He).
  split; [done|]. split; [done|].
  assert (He' : ∀ c, c ∈ sorted_strings
                       (unique (omap (λ x : Label * Airport, country_name x.2)
                                  df_cont))
                     ↔ ∃ x : Label * Airport,
                         x ∈ df_cont ∧ country_name x.2 = Some c).
  { intros c. by rewrite He, list_elem_of_omap. }
  split; [done|]. intros c (x & Hx & Hc)%He' Hne.
  unfold filter_country. rewrite decide_False by done. split.
  - intros Hnil.
    assert (Hin : x ∈ filter (λ x : Label * Airport, country_name x.2 = Some c)
                        df_cont)
      by (by apply list_elem_of_filter).
    rewrite Hnil in Hin. by apply elem_of_nil in Hin.
  - apply Forall_forall. by intros y [Hy _]%list_elem_of_filter.
Qed.
End FilterMore.

(** * Further properties of the aggregations *)

Section AggregationMore.
Local Open Scope Z_scope.
Implicit Types (df : DataFrame).

Lemma NoDup_all_eq {A} (l : list A) (c : A) :
  NoDup l → (∀ x, x ∈ l → x = c) → c ∈ l → l = [c].
Proof.
  intros Hnd Hall Hc. destruct l as [|a [|b l]].
  - by apply elem_of_nil in Hc.
  - f_equal. apply Hall. left.
  - assert (a = c) by (apply Hall; left).
    assert (b = c) by (apply Hall; right; left). subst.
    apply NoDup_cons in Hnd as [Hn _]. exfalso. apply Hn. left.
Qed.

Lemma group_count_bounds df (c : string) :
  0 ≤ group_count df c ≤ Z.of_nat (length df).
Proof.
  unfold group_count.
  pose proof (length_filter
    (λ x : Label * Airport, country_name x.2 = Some c ∧ is_Some (name x.2)) df).
  lia.
Qed.

(** X23.  The grouped counts hold one row per country name of the frame,
    in ascending order of the names, and every count lies between 0 and
    the size of the frame. *)
Theorem groupby_country_count_rows df :
  StronglySorted String.le (groupby_country_count df).*1
  ∧ NoDup (groupby_country_count df).*1
  ∧ (∀ c, c ∈ (groupby_country_count df).*1
          ↔ ∃ x : Label * Airport, x ∈ df ∧ country_name x.2 = Some c)
  ∧ Forall (λ r : string * Z, 0 ≤ r.2 ≤ Z.of_nat (length df))
           (groupby_country_count df).
Proof.
  assert (Hk : (groupby_country_count df).*1 = group_keys df).
  { unfold groupby_country_count. rewrite <- list_fmap_compose.
    apply list_fmap_id. }
  rewrite Hk. split; [apply (StronglySorted_merge_sort String.le); apply _|].
  split; [apply NoDup_group_keys|]. split; [apply elem_of_group_keys|].
  unfold groupby_country_count. apply Forall_fmap, Forall_true. intros c.
  apply group_count_bounds.
Qed.

(** X24.  With a country selected, the table of counts has the single row
    of that country, whose count is the number of filtered rows that
    have a name; the highest and the lowest entry are both that row. *)
Theorem country_selected_extremes
    (sort_values : list (string * Z) → list (string * Z))
    (airports : DataFrame) (selected_cont_code : option string)
    (selected_country : string) (selected_types : list string) :
  sorts_by_count_desc sort_values →
  selected_country ≠ "All countries"%string →
  df_filtered airports selected_cont_code selected_country selected_types ≠ [] →
  let df := df_filtered airports selected_cont_code selected_country
              selected_types in
  let n := Z.of_nat (length (filter (λ x : Label * Airport,
                                       is_Some (name x.2)) df)) in
  country_counts sort_values df = [(selected_country, n)]
  ∧ country_min_max sort_values df
    = (Some (selected_country, n), Some (selected_country, n)).
Proof.
  intros Hsort Hc Hne df n.
  assert (Hall : ∀ x : Label * Airport,
                   x ∈ df → country_name x.2 = Some selected_country).
  { intros x Hx. apply elem_of_df_filtered in Hx as (_ & _ & [?|?] & _); done. }
  assert (Hkeys : group_keys df = [selected_country]).
  { apply NoDup_all_eq; [apply NoDup_group_keys| |].
    - intros c (x & Hx & Hcx)%elem_of_group_keys.
      rewrite (Hall x Hx) in Hcx. congruence.
    - apply elem_of_group_keys. fold df in Hne.
      destruct df as [|x l] eqn:Hdf; [done|]. exists x.
      split; [left|]. apply Hall. left. }
  assert (Hn : group_count df selected_country = n).
  { unfold group_count, n. do 2 f_equal. apply filter_ext_in.
    intros x Hx. rewrite (Hall x Hx). tauto. }
  assert (Hcounts : country_counts sort_values df = [(selected_country, n)]).
  { unfold country_counts, groupby_country_count. rewrite Hkeys. simpl.
    rewrite Hn. apply Permutation_singleton_r, Hsort. }
  split; [done|]. unfold country_min_max. by rewrite Hcounts.
Qed.

Lemma country_selected_extremes_witness :
  sorts_by_count_desc sort_values_count_desc
  ∧ "United Kingdom"%string ≠ "All countries"%string
  ∧ df_filtered (load_airports sample_csv sample_iso) None
      "United Kingdom" ["large_airport"%string] ≠ []
  ∧ country_min_max sort_values_count_desc
      (df_filtered (load_airports sample_csv sample_iso) None
         "United Kingdom" ["large_airport"%string])
    = (Some ("United Kingdom"%string, 1), Some ("United Kingdom"%string, 1)).
Proof.
  assert (Hc : "United Kingdom"%string ≠ "All countries"%string)
    by discriminate.
  assert (Hne : df_filtered (load_airports sample_csv sample_iso) None
                  "United Kingdom" ["large_airport"%string] ≠ []).
  { intros H. apply (f_equal length) in H. vm_compute in H. discriminate. }
  split; [exact sort_values_count_desc_sorts|].
  split; [exact Hc|]. split; [exact Hne|].
  exact (proj2 (country_selected_extremes sort_values_count_desc
                  (load_airports sample_csv sample_iso) None "United Kingdom"
                  ["large_airport"%string] sort_values_count_desc_sorts Hc Hne)).
Defined.

(** X25.  The bar chart shows the countries with the most airports:
    [top15] is the first min(15, n) rows of the n sorted counts, in
    descending order, and no row left out has a larger count than a row
    shown. *)
Theorem top15_largest
    (sort_values : list (string * Z) → list (string * Z)) df :
  sorts_by_count_desc sort_values →
  let counts := country_counts sort_values df in
  length (top15 counts) = (15 `min` length (groupby_country_count df))%nat
  ∧ top15 counts ++ drop 15 counts ≡ₚ groupby_country_count df
  ∧ descending (top15 counts)
  ∧ ∀ x y, x ∈ top15 counts → y ∈ drop 15 counts → y.2 ≤ x.2.
Proof.
  intros Hsort counts. unfold top15.
  destruct (Hsort (groupby_country_count df)) as [Hperm Hdesc].
  fold (country_counts sort_values df) in Hperm, Hdesc. fold counts in Hperm, Hdesc.
  rewrite take_drop, length_take, <- Hperm.
  rewrite <- (take_drop 15 counts) in Hdesc.
  split; [done|]. split; [done|]. split.
  - by apply StronglySorted_app_1_l in Hdesc.
  - intros x y Hx Hy.
    exact (StronglySorted_app_1_elem_of _ _ _ x y Hdesc Hx Hy).
Qed.

Lemma top15_largest_witness :
  sorts_by_count_desc sort_values_count_desc
  ∧ length (top15 (country_counts sort_values_count_desc two_airports))
    = (15 `min` length (groupby_country_count two_airports))%nat.
Proof.
  split; [exact sort_values_count_desc_sorts|].
  exact (proj1 (top15_largest sort_values_count_desc two_airports
                  sort_values_count_desc_sorts)).
Defined.

Lemma filter_all_in {A} (P : A → Prop) `{!∀ x, Decision (P x)} (l : list A) :
  (∀ x, x ∈ l → P x) → filter P l = l.
Proof.
  induction l as [|x l IH]; intros HP; [done|].
  rewrite filter_cons, decide_True by (apply HP; left).
  f_equal. apply IH. intros y ?. apply HP. by right.
Qed.

Lemma type_count_cons (x : Label * Airport * R) (l : list (Label * Airport * R))
    (t : string) :
  type_count (x :: l) t
  = (if decide (type x.1.2 = Some t) then 1 else 0) + type_count l t.
Proof. unfold type_count. rewrite filter_cons. case_decide; simpl; lia. Qed.

Lemma sum_type_counts (keys : list string) (l : list (Label * Airport * R)) :
  NoDup keys →
  (∀ x t, x ∈ l → type x.1.2 = Some t → t ∈ keys) →
  sum_counts ((λ t, (t, type_count l t)) <$> keys)
  = Z.of_nat (length (filter (λ x : Label * Airport * R,
                                is_Some (type x.1.2)) l)).
Proof.
  intros Hnd. induction l as [|x l IH]; intros Hkeys.
  - simpl. apply sum_counts_zero.
  - rewrite (sum_counts_ext _ _ _ (λ t _, type_count_cons x l t)).
    rewrite sum_counts_add, IH by (intros y t ?; apply Hkeys; by right).
    rewrite filter_cons.
    destruct (decide (is_Some (type x.1.2))) as [[t0 Ht0]|Hnot].
    + simpl length.
      rewrite (sum_counts_ext _ (λ t, if decide (t0 = t) then 1 else 0)).
      { rewrite sum_counts_indicator; [lia|done|].
        eapply Hkeys; [by left|done]. }
      intros t _. rewrite Ht0. destruct (decide (t0 = t)) as [->|Hne].
      * by rewrite decide_True.
      * rewrite decide_False; [done|]. congruence.
    + rewrite (sum_counts_ext _ (λ _, 0)), sum_counts_zero; [lia|].
      intros t _. rewrite decide_False; [done|]. intros Ht.
      apply Hnot. by eexists.
Qed.

(** X26.  The pie chart accounts for every airport in the radius: in
    [main] the counts of [value_counts] on the rows within the radius add
    up to the number of those rows, because the type filter has left no
    row without a type. *)
Theorem type_counts_total
    (sort_values : list (string * Z) → list (string * Z))
    (airports : DataFrame) (selected_cont_code : option string)
    (selected_country : string) (selected_types : list string)
    (pin_lat pin_lon radius : R) :
  sorts_by_count_desc sort_values →
  ∃ df_radius,
    radius_filter
      (df_filtered airports selected_cont_code selected_country selected_types)
      pin_lat pin_lon radius = Some df_radius
    ∧ NoDup (type_counts sort_values df_radius).*1
    ∧ sum_counts (type_counts sort_values df_radius)
      = Z.of_nat (length df_radius).
Proof.
  intros Hsort. eexists. split; [apply radius_filter_unfold|].
  set (df := df_filtered _ _ _ _). set (res := omap _ df).
  assert (Htyped : ∀ x, x ∈ res → is_Some (type x.1.2)).
  { intros x Hx. apply (list_elem_of_fmap_2 fst) in Hx.
    eapply elem_of_sublist in Hx; [|apply radius_omap_sublist].
    apply elem_of_df_filtered in Hx as (_ & _ & _ & Hin).
    destruct (type x.1.2); [by eexists|done]. }
  unfold type_counts.
  destruct (Hsort ((λ t, (t, type_count res t))
                     <$> unique (omap (λ x : Label * Airport * R, type x.1.2) res)))
    as [Hperm _].
  split.
  - rewrite Hperm.
    assert (Hk : ∀ keys : list string,
               ((λ t, (t, type_count res t)) <$> keys).*1 = keys)
      by (intros keys; rewrite <- list_fmap_compose; apply list_fmap_id).
    rewrite Hk. apply NoDup_unique.
  - rewrite (sum_counts_Permutation _ _ Hperm).
    rewrite sum_type_counts; [|apply NoDup_unique|].
    + do 2 f_equal. by apply filter_all_in.
    + intros x t Hx Ht. apply elem_of_unique, list_elem_of_omap. eauto.
Qed.

Lemma type_counts_total_witness :
  sorts_by_count_desc sort_values_count_desc
  ∧ ∃ df_radius,
      radius_filter
        (df_filtered (load_airports sample_csv sample_iso) None
           "All countries" ["large_airport"%string])
        51.5074 (-0.1278) 500 = Some df_radius
      ∧ NoDup (type_counts sort_values_count_desc df_radius).*1
      ∧ sum_counts (type_counts sort_values_count_desc df_radius)
        = Z.of_nat (length df_radius).
Proof.
  split; [exact sort_values_count_desc_sorts|].
  exact (type_counts_total sort_values_count_desc
           (load_airports sample_csv sample_iso) None "All countries"
           ["large_airport"%string] 51.5074 (-0.1278) 500
           sort_values_count_desc_sorts).
Defined.
End AggregationMore.

(** * The option lists and views on small inputs *)

Section MoreExamples.
Local Open Scope string_scope.
Local Open Scope Z_scope.

Example unique_first_appearance :
  unique ["b"; "a"; "b"; "c"; "a"] = ["b"; "a"; "c"].
Proof. reflexivity. Qed.

Example get_sorted_types_sample :
  get_sorted_types [(0, heathrow); (1, kennedy); (2, pristina)]
  = ["large_airport"].
Proof. reflexivity. Qed.

Example continent_codes_sample :
  continent_codes [(0, heathrow); (1, kennedy); (2, pristina)] = ["EU"].
Proof. reflexivity. Qed.

Example cont_display_sample :
  cont_display ["AF"; "EU"; "XX"] = ["All continents"; "Africa"; "Europe"; "XX"].
Proof. reflexivity. Qed.

Example select_continent_all :
  select_continent "All continents" two_airports = Some (None, two_airports).
Proof. reflexivity. Qed.

Example select_continent_europe :
  select_continent "Europe" two_airports = Some (Some "EU", [(0, heathrow)]).
Proof. reflexivity. Qed.

Example select_continent_unlisted :
  select_continent "Asia" two_airports = None.
Proof. reflexivity. Qed.

Example country_list_sample :
  country_list [(1, kennedy); (0, heathrow); (5, heathrow)]
  = ["United Kingdom"; "United States"].
Proof. reflexivity. Qed.

Example top15_short : top15 [("France", 7); ("Spain", 4)] = [("France", 7); ("Spain", 4)].
Proof. reflexivity. Qed.

Example max_dist_empty : max_dist [] = 1000%R.
Proof. reflexivity. Qed.

Example max_dist_three : max_dist [(0, 3%R); (1, 7%R); (2, 5%R)] = 7%R.
Proof.
  unfold max_dist. simpl. unfold Rmax.
  repeat (destruct (Rle_dec _ _); try lra).
Qed.
End MoreExamples.
